(** * The USearch host bindings: JavaScript (N-API) and Rust (cxx)

    A shallow embedding of [src/javascript/lib.cpp] and [src/rust/lib.cpp].
    Both files are thin layers over the native index [index_dense_t] of
    [usearch/index_dense.hpp].  The native index is not part of the two
    files; it appears here as an interface ([Native.Engine]) that every
    statement is parametric in, together with

    - a call recorder ([Traced]) that wraps any engine and logs the calls
      the layer issues, which is how "invokes", "before" and "exactly once"
      are stated;
    - an executable reference engine ([Reference]) on which concrete runs
      are evaluated.

    Conventions of the model.
    - [size_t] and [uint64_t] are [Z] with the 64-bit wrap-around written
      [wrap64]; [float] is its IEEE-754 binary32 bit pattern.
    - A native call either returns or throws; [Native.raised] keeps the two
      catch clauses of the JavaScript layer apart.
    - A result object ([add_result_t], [labeling_result_t], ...) carries an
      optional message.  The message is armed: [release()] (JavaScript layer)
      and [raise()] (Rust layer) are the two ways the source takes it out, and
      a result that dies with its message still in it raises it as a
      [std::runtime_error].
    - [ThrowAsJavaScriptException] leaves a JavaScript exception pending and
      returns.  The functions of the layer return right after it, except in
      the loop of the batch [add]: there the next read of an array element
      finds the exception pending and, C++ exceptions being enabled
      ([NAPI_CPP_EXCEPTIONS]), throws, which ends the call with that one
      exception.
    - [As<T>()] is an unchecked cast: a layer function is [None] on the calls
      that apply it to a value of another type (a typed array that is no
      Float32Array, a batch key that is no BigInt), and the statements say
      nothing of those calls.
    - The buffers [Index::Search] allocates for its answer are taken to be
      granted: a number of wanted matches too large to allocate is outside the
      model. *)

From Stdlib Require Import ZArith List String Bool Lia.
Import ListNotations.
Local Open Scope Z_scope.

(** ** Machine integers and floats *)

Definition wrap64 (z : Z) : Z := z mod 2 ^ 64.

(** [float]: the bit pattern of an IEEE-754 binary32 value. *)
Definition f32 : Type := Z.
Definition f32_zero : f32 := 0.

(** [key_t] of [index_dense_t] is [std::uint64_t]
    (see the [static_assert] in [Index::Search]). *)
Definition key_t : Type := Z.

Definition len {A : Type} (l : list A) : Z := Z.of_nat (List.length l).

(** ** The native engine, as the two layers see it *)

Module Native.

Module metric_kind_t.
Inductive t : Type :=
| unknown_k | ip_k | l2sq_k | cos_k | pearson_k
| haversine_k | hamming_k | tanimoto_k | sorensen_k.
End metric_kind_t.

Module scalar_kind_t.
Inductive t : Type :=
| unknown_k | b1x8_k | f64_k | f32_k | f16_k | i8_k.
End scalar_kind_t.

(** Modelled from the spec: [error_t] is declared in the engine's header.
    Section 7: "any failure signaled by the engine's result object" has its
    "message passed through verbatim", and "none are silently swallowed".  A
    message, or nothing; [release()] and [raise()] take the message out, and
    the destructor raises, as a [std::runtime_error], a message that is still
    there. *)
Definition error_t : Type := option string.

(** [expected_gt<T>]: [operator bool] is "no error", [operator*] is the
    value. *)
Record expected_gt (T : Type) : Type :=
  { expected_value : T; expected_error : error_t }.
Arguments expected_value {T} _.
Arguments expected_error {T} _.

Record add_result_t : Type := { add_error : error_t }.

Record labeling_result_t : Type :=
  { labeling_error : error_t; completed : bool }.

(** The matches of a search, nearest first, each a key and a distance. *)
Record search_result_t : Type :=
  { search_error : error_t; found : list (key_t * f32) }.

Record serialization_result_t : Type := { serialization_error : error_t }.

Record metric_punned_t : Type :=
  { metric_dimensions : Z;
    metric_kind : metric_kind_t.t;
    metric_scalar : scalar_kind_t.t }.

Record index_dense_config_t : Type :=
  { config_connectivity : Z;
    config_expansion_add : Z;
    config_expansion_search : Z }.

(** The outcome of a native call that may throw: the layer's [try] blocks
    tell [std::bad_alloc] from everything else. *)
Inductive raised (A : Type) : Type :=
| Returns (a : A)
| Throws_bad_alloc
| Throws_other.
Arguments Returns {A} a.
Arguments Throws_bad_alloc {A}.
Arguments Throws_other {A}.

(** What the layers use of [usearch/index_dense.hpp].  [E] is the state of
    one [index_dense_t]; a member function takes the state and gives the
    next one. *)
Class Engine (E : Type) : Type :=
  { make : metric_punned_t -> index_dense_config_t -> E;
    dimensions : E -> Z;
    size : E -> Z;
    capacity : E -> Z;
    connectivity : E -> Z;
    reserve : Z -> E -> E * bool;
    add : key_t -> list f32 -> E -> E * raised add_result_t;
    search : list f32 -> Z -> E -> E * raised search_result_t;
    remove : key_t -> E -> E * raised labeling_result_t;
    rename : key_t -> key_t -> E -> E * raised labeling_result_t;
    contains : key_t -> E -> raised bool;
    save : string -> E -> E * raised serialization_result_t;
    load : string -> E -> E * raised serialization_result_t;
    view : string -> E -> E * raised serialization_result_t;
    (* free functions of the same header *)
    default_connectivity : Z;
    default_expansion_add : Z;
    default_expansion_search : Z;
    scalar_kind_from_name : string -> expected_gt scalar_kind_t.t;
    metric_from_name : string -> expected_gt metric_kind_t.t;
    ceil2 : Z -> Z }.

(** Modelled from the spec: [search_result_t::dump_to] is declared in the
    engine's header.  "The engine fills up to count <= k actual matches":
    entry [i] of each buffer receives match [i], and the number of matches
    is returned.  A write past the end of a buffer is undefined in C++; the
    model drops it. *)
Fixpoint fill {A : Type} (src dst : list A) : list A :=
  match src, dst with
  | [], _ => dst
  | _ :: _, [] => []
  | s :: src', _ :: dst' => s :: fill src' dst'
  end.

Definition dump_to (result : search_result_t)
    (keys : list key_t) (distances : list f32) : Z * list key_t * list f32 :=
  (len (found result),
   fill (map fst (found result)) keys,
   fill (map snd (found result)) distances).

End Native.

(** ** Recording the calls the layer issues *)

Inductive call : Type :=
| call_reserve (members : Z)
| call_add (key : key_t) (vector : list f32)
| call_search (vector : list f32) (wanted : Z)
| call_remove (key : key_t)
| call_rename (from to : key_t)
| call_save (path : string)
| call_load (path : string)
| call_view (path : string).

Record traced (E : Type) : Type := { inner : E; calls : list call }.
Arguments inner {E} _.
Arguments calls {E} _.

Definition logged {E A : Type} (c : call) (t : traced E) (r : E * A)
    : traced E * A :=
  ({| inner := fst r; calls := calls t ++ [c] |}, snd r).

#[global] Instance Traced {E : Type} `{Native.Engine E}
    : Native.Engine (traced E) :=
  {| Native.make m c := {| inner := Native.make m c; calls := [] |};
     Native.dimensions t := Native.dimensions (inner t);
     Native.size t := Native.size (inner t);
     Native.capacity t := Native.capacity (inner t);
     Native.connectivity t := Native.connectivity (inner t);
     Native.reserve n t :=
       logged (call_reserve n) t (Native.reserve n (inner t));
     Native.add k v t := logged (call_add k v) t (Native.add k v (inner t));
     Native.search v n t :=
       logged (call_search v n) t (Native.search v n (inner t));
     Native.remove k t := logged (call_remove k) t (Native.remove k (inner t));
     Native.rename a b t :=
       logged (call_rename a b) t (Native.rename a b (inner t));
     Native.contains k t := Native.contains k (inner t);
     Native.save p t := logged (call_save p) t (Native.save p (inner t));
     Native.load p t := logged (call_load p) t (Native.load p (inner t));
     Native.view p t := logged (call_view p) t (Native.view p (inner t));
     Native.default_connectivity := Native.default_connectivity;
     Native.default_expansion_add := Native.default_expansion_add;
     Native.default_expansion_search := Native.default_expansion_search;
     Native.scalar_kind_from_name := Native.scalar_kind_from_name;
     Native.metric_from_name := Native.metric_from_name;
     Native.ceil2 := Native.ceil2 |}.

(** ** The JavaScript layer: [src/javascript/lib.cpp] *)

Module Napi.

(** The JavaScript values the layer tells apart. *)
#[local] Unset Elimination Schemes.
Inductive Value : Type :=
| Undefined
| Boolean (b : bool)
| Number
| Str (s : string)
| BigInt (z : Z)
| Float32Array (data : list f32)
| BigUint64Array (data : list Z)
| OtherTypedArray
| Array (elements : list Value)
| Object (properties : list (string * Value)).
#[local] Set Elimination Schemes.

Definition IsString (v : Value) : bool :=
  match v with Str _ => true | _ => false end.
Definition IsBigInt (v : Value) : bool :=
  match v with BigInt _ => true | _ => false end.
Definition IsArray (v : Value) : bool :=
  match v with Array _ => true | _ => false end.
Definition IsTypedArray (v : Value) : bool :=
  match v with
  | Float32Array _ | BigUint64Array _ | OtherTypedArray => true
  | _ => false
  end.
Definition IsObject (v : Value) : bool :=
  match v with
  | Object _ | Array _ => true
  | other => IsTypedArray other
  end.

(** [ctx[i]]: an argument that was not passed is [undefined]. *)
Definition arg (i : nat) (ctx : list Value) : Value := nth i ctx Undefined.

(** [BigInt::Uint64Value(&lossless)]: the low 64 bits, and whether nothing
    was lost. *)
Definition Uint64Value (z : Z) : Z * bool :=
  (wrap64 z, (0 <=? z) && (z <? 2 ^ 64)).

Definition properties_of (v : Value) : list (string * Value) :=
  match v with Object ps => ps | _ => [] end.

Definition Has (params : Value) (name : string) : bool :=
  existsb (fun p => String.eqb (fst p) name) (properties_of params).

Definition Get (params : Value) (name : string) : Value :=
  match find (fun p => String.eqb (fst p) name) (properties_of params) with
  | Some p => snd p
  | None => Undefined
  end.

Inductive Error : Type := TypeError (message : string).

(** What a call leaves behind: the exceptions thrown, oldest first, and
    the value handed back. *)
Record Completion : Type :=
  { thrown : list Error; returned : Value }.

Definition throw (message : string) : Completion :=
  {| thrown := [TypeError message]; returned := Undefined |}.

Definition give (v : Value) : Completion :=
  {| thrown := []; returned := v |}.

End Napi.

Module JS.
Import Napi.
Local Open Scope string_scope.
Local Open Scope list_scope.
Local Open Scope Z_scope.

Section Index.
Context {E : Type} `{Native.Engine E}.

(** One numeric option of the constructor:
    [params.Has(name) ? params.Get(name).As<BigInt>().Uint64Value(&lossless) : keep].
    Every read goes through the same [lossless] flag and overwrites it. *)
Definition option_uint (params : Value) (name : string)
    (keep : Z) (lossless : bool) : option (Z * bool) :=
  if Has params name then
    match Get params name with
    | BigInt z => Some (Uint64Value z)
    | _ => None
    end
  else Some (keep, lossless).

(** [params.Has(name)] followed by [As<Napi::String>().Utf8Value()]:
    [Some None] when the option is absent. *)
Definition option_name (params : Value) (name : string)
    : option (option string) :=
  if Has params name then
    match Get params name with
    | Str s => Some (Some s)
    | _ => None
    end
  else Some None.

Definition failed (message : string) : option (option E * list Error) :=
  Some (None, [TypeError message]).

(** [Index::Index]: [native_] (or null), and what was thrown.  A
    default-constructed [index_limits_t] has no members ("capacity: uint,
    default 0" in the specification). *)
Definition Index (ctx : list Value) : option (option E * list Error) :=
  let length := len ctx in
  if (length =? 0) || (length >=? 2) || negb (IsObject (arg 0 ctx)) then
    failed "Pass args as named objects: dimensions: uint, capacity: uint, metric: str"
  else
    let params := arg 0 ctx in
    match option_uint params "dimensions" 0 true with
    | None => None
    | Some (dimensions, lossless) =>
    match option_uint params "capacity" 0 lossless with
    | None => None
    | Some (members, lossless) =>
    match option_uint params "connectivity"
            Native.default_connectivity lossless with
    | None => None
    | Some (connectivity, lossless) =>
    match option_uint params "expansion_add"
            Native.default_expansion_add lossless with
    | None => None
    | Some (expansion_add, lossless) =>
    match option_uint params "expansion_search"
            Native.default_expansion_search lossless with
    | None => None
    | Some (expansion_search, lossless) =>
    if negb lossless then failed "Arguments must be unsigned integers"
    else
    match option_name params "quantization" with
    | None => None
    | Some quantization_str =>
    let expected_q :=
      match quantization_str with
      | Some s => Native.scalar_kind_from_name s
      | None =>
          {| Native.expected_value := Native.scalar_kind_t.f32_k;
             Native.expected_error := None |}
      end in
    match Native.expected_error expected_q with
    | Some message => failed message
    | None =>
    let quantization := Native.expected_value expected_q in
    match option_name params "metric" with
    | None => None
    | Some metric_str =>
    let expected_m :=
      match metric_str with
      | Some s => Native.metric_from_name s
      | None =>
          {| Native.expected_value := Native.metric_kind_t.ip_k;
             Native.expected_error := None |}
      end in
    match Native.expected_error expected_m with
    | Some message => failed message
    | None =>
    let metric_kind := Native.expected_value expected_m in
    let metric :=
      {| Native.metric_dimensions := dimensions;
         Native.metric_kind := metric_kind;
         Native.metric_scalar := quantization |} in
    let config :=
      {| Native.config_connectivity := connectivity;
         Native.config_expansion_add := expansion_add;
         Native.config_expansion_search := expansion_search |} in
    let native_ := Native.make metric config in
    Some (Some (fst (Native.reserve members native_)), [])
    end end end end end end end end end.

Definition GetDimensions (e : E) : Value := BigInt (Native.dimensions e).
Definition GetSize (e : E) : Value := BigInt (Native.size e).
Definition GetConnectivity (e : E) : Value :=
  BigInt (Native.connectivity e).
Definition GetCapacity (e : E) : Value := BigInt (Native.capacity e).

(** The common shape of [Save], [Load] and [View]: the argument check,
    then the native call inside [try { } catch (...)]. *)
Definition with_path
    (native : string -> E -> E * Native.raised Native.serialization_result_t)
    (generic : string) (ctx : list Value) (e : E) : E * Completion :=
  match ctx with
  | Str path :: _ =>
      match native path e with
      | (e', Native.Returns result) =>
          match Native.serialization_error result with
          | Some message => (e', throw message)
          | None => (e', give Undefined)
          end
      | (e', _) => (e', throw generic)
      end
  | _ => (e, throw "Function expects a string path argument")
  end.

Definition Save := with_path Native.save "Serialization failed".
Definition Load := with_path Native.load "Loading failed".
Definition View := with_path Native.view "Memory-mapping failed".

(** The lambda [add] of [Index::Add]: one key and one vector. *)
Definition add_one (index_dimensions : Z)
    (key_js : Z) (vector_js : list f32) (e : E) : E * list Error :=
  let '(key, lossless) := Uint64Value key_js in
  if negb lossless then (e, [TypeError "Keys must be unsigned integers"])
  else
    let dimensions := len vector_js in
    if negb (dimensions =? index_dimensions) then
      (e, [TypeError "Wrong number of dimensions"])
    else
      match Native.add key vector_js e with
      | (e', Native.Returns result) =>
          match Native.add_error result with
          | Some message => (e', [TypeError message])
          | None => (e', [])
          end
      | (e', Native.Throws_bad_alloc) => (e', [TypeError "Out of memory"])
      | (e', Native.Throws_other) => (e', [TypeError "Insertion failed"])
      end.

(** The [for] loop of the batch form, over [keys_js[i]] and
    [vectors_js[i]] for [i] below the common length.  An element on which the
    lambda threw leaves its exception pending: the read of [keys_js[i]] that
    follows throws, so the loop is left there and the call ends with the
    exception of that element; after the last element the loop simply ends. *)
Fixpoint add_each (index_dimensions : Z)
    (keys_js vectors_js : list Value) (e : E)
    : option (E * list Error) :=
  match keys_js, vectors_js with
  | BigInt key_js :: keys', Float32Array vector_js :: vectors' =>
      let '(e1, errors1) := add_one index_dimensions key_js vector_js e in
      match errors1 with
      | [] => add_each index_dimensions keys' vectors' e1
      | _ :: _ => Some (e1, errors1)
      end
  | _ :: _, _ :: _ => None
  | _, _ => Some (e, [])
  end.

Definition thrown_all (r : E * list Error) : E * Completion :=
  (fst r, {| thrown := snd r; returned := Undefined |}).

(** [Index::Add]. *)
Definition Add (ctx : list Value) (e : E) : option (E * Completion) :=
  if len ctx <? 2 then Some (e, throw "Expects at least two arguments")
  else
    let index_dimensions := Native.dimensions e in
    match arg 0 ctx, arg 1 ctx with
    | Array keys_js, Array vectors_js =>
        let length := len keys_js in
        if negb (length =? len vectors_js) then
          Some (e, throw "The number of keys must match the number of vectors")
        else if wrap64 (Native.size e + length) >=? Native.capacity e then
          let '(e1, reserved) :=
            Native.reserve
              (Native.ceil2 (wrap64 (Native.size e + length))) e in
          if negb reserved then Some (e1, throw "Out of memory!")
          else
            option_map thrown_all
              (add_each index_dimensions keys_js vectors_js e1)
        else
          option_map thrown_all
            (add_each index_dimensions keys_js vectors_js e)
    | BigInt key_js, vector =>
        if IsTypedArray vector then
          let e1 :=
            if wrap64 (Native.size e + 1) >=? Native.capacity e then
              fst (Native.reserve
                     (Native.ceil2 (wrap64 (Native.size e + 1))) e)
            else e in
          match vector with
          | Float32Array vector_js =>
              Some (thrown_all
                      (add_one index_dimensions key_js vector_js e1))
          | _ => None
          end
        else
          Some (e, throw "Invalid argument type, expects integral key(s) and float vector(s)")
    | _, _ =>
        Some (e, throw "Invalid argument type, expects integral key(s) and float vector(s)")
    end.

(** [Index::Search].  The two buffers of [wanted] elements are allocated
    before the [try]; their allocation is taken to succeed. *)
Definition Search (ctx : list Value) (e : E) : option (E * Completion) :=
  match ctx with
  | vector :: BigInt wanted_js :: _ =>
      if negb (IsTypedArray vector) then
        Some (e, throw "Expects a  and the number of wanted results")
      else
        match vector with
        | Float32Array vector_js =>
            let dimensions := len vector_js in
            if negb (dimensions =? Native.dimensions e) then
              Some (e, throw "Wrong number of dimensions")
            else
              let '(wanted, lossless) := Uint64Value wanted_js in
              if negb lossless then
                Some (e, throw "Wanted number of matches must be an unsigned integer")
              else
                let matches_js := repeat 0 (Z.to_nat wanted) in
                let distances_js := repeat f32_zero (Z.to_nat wanted) in
                match Native.search vector_js wanted e with
                | (e', Native.Returns result) =>
                    match Native.search_error result with
                    | Some message => Some (e', throw message)
                    | None =>
                        let '(count, matches_js, distances_js) :=
                          Native.dump_to result matches_js distances_js in
                        Some (e', give (Object
                          [("keys", BigUint64Array matches_js);
                           ("distances", Float32Array distances_js);
                           ("count", BigInt count)]))
                    end
                | (e', Native.Throws_bad_alloc) =>
                    Some (e', throw "Out of memory")
                | (e', Native.Throws_other) =>
                    Some (e', throw "Search failed")
                end
        | _ => None
        end
  | _ => Some (e, throw "Expects a  and the number of wanted results")
  end.

(** [Index::Remove]. *)
Definition Remove (ctx : list Value) (e : E) : E * Completion :=
  match ctx with
  | BigInt key_js :: _ =>
      let '(key, lossless) := Uint64Value key_js in
      if negb lossless then
        (e, throw "Identifier must be an unsigned integer")
      else
        match Native.remove key e with
        | (e', Native.Returns result) =>
            match Native.labeling_error result with
            | Some message => (e', throw message)
            | None => (e', give (Boolean (Native.completed result)))
            end
        | (e', Native.Throws_bad_alloc) => (e', throw "Out of memory")
        | (e', Native.Throws_other) => (e', throw "Search failed")
        end
  | _ => (e, throw "Expects an entry identifier")
  end.

(** [Index::Contains]. *)
Definition Contains (ctx : list Value) (e : E) : E * Completion :=
  match ctx with
  | BigInt key_js :: _ =>
      let '(key, lossless) := Uint64Value key_js in
      if negb lossless then
        (e, throw "Identifier must be an unsigned integer")
      else
        match Native.contains key e with
        | Native.Returns result => (e, give (Boolean result))
        | Native.Throws_bad_alloc => (e, throw "Out of memory")
        | Native.Throws_other => (e, throw "Search failed")
        end
  | _ => (e, throw "Expects an entry identifier")
  end.

End Index.
End JS.

(** ** The Rust layer: [src/rust/lib.cpp] *)

Module Rust.
Local Open Scope list_scope.

(** The shared enums of the cxx bridge.  The [switch] statements of the
    source name these enumerators and have a [default] arm for any other
    representation.  [MetricKind_other] and [ScalarKind_other] stand for all
    of those at once: the model does not tell one unnamed representation from
    another. *)
Inductive MetricKind : Type :=
| IP | L2sq | Cos | Pearson | Haversine | Hamming | Tanimoto | Sorensen
| MetricKind_other.

Inductive ScalarKind : Type :=
| I8 | F16 | F32 | F64 | B1
| ScalarKind_other.

Record IndexOptions : Type :=
  { dimensions : Z;
    metric : MetricKind;
    quantization : ScalarKind;
    connectivity : Z;
    expansion_add : Z;
    expansion_search : Z }.

Record Matches : Type :=
  { keys : list key_t; distances : list f32 }.

(** How a C++ function of the bridge ends: with a value, with the
    [std::runtime_error] of [error_t::raise], or with what the engine
    threw. *)
Inductive ended (A : Type) : Type :=
| Value (a : A)
| runtime_error (what : string)
| bad_alloc
| other_exception.
Arguments Value {A} a.
Arguments runtime_error {A} what.
Arguments bad_alloc {A}.
Arguments other_exception {A}.

(** [error.raise()], then the rest of the function. *)
Definition raise {A : Type} (error : Native.error_t) (rest : A) : ended A :=
  match error with
  | Some message => runtime_error message
  | None => Value rest
  end.

(** [rust::Vec::truncate]: no effect when the vector is already shorter. *)
Definition truncate {A : Type} (n : Z) (v : list A) : list A :=
  firstn (Z.to_nat n) v.

Definition rust_to_cpp_metric (value : MetricKind) : Native.metric_kind_t.t :=
  match value with
  | IP => Native.metric_kind_t.ip_k
  | L2sq => Native.metric_kind_t.l2sq_k
  | Cos => Native.metric_kind_t.cos_k
  | Pearson => Native.metric_kind_t.pearson_k
  | Haversine => Native.metric_kind_t.haversine_k
  | Hamming => Native.metric_kind_t.hamming_k
  | Tanimoto => Native.metric_kind_t.tanimoto_k
  | Sorensen => Native.metric_kind_t.sorensen_k
  | MetricKind_other => Native.metric_kind_t.unknown_k
  end.

Definition rust_to_cpp_scalar (value : ScalarKind) : Native.scalar_kind_t.t :=
  match value with
  | I8 => Native.scalar_kind_t.i8_k
  | F16 => Native.scalar_kind_t.f16_k
  | F32 => Native.scalar_kind_t.f32_k
  | F64 => Native.scalar_kind_t.f64_k
  | B1 => Native.scalar_kind_t.b1x8_k
  | ScalarKind_other => Native.scalar_kind_t.unknown_k
  end.

Section Index.
Context {E : Type} `{Native.Engine E}.

Definition add (key : key_t) (vector : list f32) (e : E)
    : E * ended unit :=
  match Native.add key vector e with
  | (e', Native.Returns result) => (e', raise (Native.add_error result) tt)
  | (e', Native.Throws_bad_alloc) => (e', bad_alloc)
  | (e', Native.Throws_other) => (e', other_exception)
  end.

Definition remove (key : key_t) (e : E) : E * ended bool :=
  match Native.remove key e with
  | (e', Native.Returns result) =>
      (e', raise (Native.labeling_error result) (Native.completed result))
  | (e', Native.Throws_bad_alloc) => (e', bad_alloc)
  | (e', Native.Throws_other) => (e', other_exception)
  end.

Definition rename (from to : key_t) (e : E) : E * ended bool :=
  match Native.rename from to e with
  | (e', Native.Returns result) =>
      (e', raise (Native.labeling_error result) (Native.completed result))
  | (e', Native.Throws_bad_alloc) => (e', bad_alloc)
  | (e', Native.Throws_other) => (e', other_exception)
  end.

Definition contains (key : key_t) (e : E) : ended bool :=
  match Native.contains key e with
  | Native.Returns result => Value result
  | Native.Throws_bad_alloc => bad_alloc
  | Native.Throws_other => other_exception
  end.

(** Lines 31-35 of [Index::search]: two vectors of [count] zeros. *)
Definition zeroed (count : Z) : Matches :=
  {| keys := repeat 0 (Z.to_nat count);
     distances := repeat f32_zero (Z.to_nat count) |}.

Definition search (vector : list f32) (count : Z) (e : E)
    : E * ended Matches :=
  let matches := zeroed count in
  match Native.search vector count e with
  | (e', Native.Returns result) =>
      match Native.search_error result with
      | Some message => (e', runtime_error message)
      | None =>
          let '(count, filled_keys, filled_distances) :=
            Native.dump_to result (keys matches) (distances matches) in
          (e', Value {| keys := truncate count filled_keys;
                        distances := truncate count filled_distances |})
      end
  | (e', Native.Throws_bad_alloc) => (e', bad_alloc)
  | (e', Native.Throws_other) => (e', other_exception)
  end.

Definition reserve (capacity : Z) (e : E) : E :=
  fst (Native.reserve capacity e).

(** The common shape of [save], [load] and [view]: the native call as a
    statement of its own.  Its result dies at the end of the statement, and a
    message in it is raised by the destructor of [error_t]. *)
Definition discarding
    (native : string -> E -> E * Native.raised Native.serialization_result_t)
    (path : string) (e : E) : E * ended unit :=
  match native path e with
  | (e', Native.Returns result) =>
      (e', raise (Native.serialization_error result) tt)
  | (e', Native.Throws_bad_alloc) => (e', bad_alloc)
  | (e', Native.Throws_other) => (e', other_exception)
  end.

Definition save := discarding Native.save.
Definition load := discarding Native.load.
Definition view := discarding Native.view.

(** [new_index], with [wrap] moving the fresh index into its owner. *)
Definition new_index (options : IndexOptions) : E :=
  let metric_kind := rust_to_cpp_metric (metric options) in
  let scalar_kind := rust_to_cpp_scalar (quantization options) in
  let metric :=
    {| Native.metric_dimensions := dimensions options;
       Native.metric_kind := metric_kind;
       Native.metric_scalar := scalar_kind |} in
  let config :=
    {| Native.config_connectivity := connectivity options;
       Native.config_expansion_add := expansion_add options;
       Native.config_expansion_search := expansion_search options |} in
  Native.make metric config.

End Index.
End Rust.

(** ** A reference engine *)

(** Modelled from the spec: the native index is the black box of section 1
    of the specification, "make, reserve, add, search, remove, rename,
    contains, save/load/view and the accessors".  This is a small executable
    stand-in for it: entries in insertion order, a capacity that [reserve]
    raises while the allocator has room, a discrete metric (distance zero to
    an equal vector, one to any other), and files kept by path. *)

Module Reference.
Local Open Scope string_scope.
Local Open Scope list_scope.
Local Open Scope Z_scope.

Definition entry : Type := (key_t * list f32)%type.

Record index : Type :=
  { dims : Z;
    conn : Z;
    cap : Z;
    (* the largest number of members the allocator can provide *)
    room : Z;
    entries : list entry;
    files : list (string * list entry) }.

Definition with_cap (c : Z) (e : index) : index :=
  {| dims := dims e; conn := conn e; cap := c; room := room e;
     entries := entries e; files := files e |}.

Definition with_entries (l : list entry) (e : index) : index :=
  {| dims := dims e; conn := conn e; cap := cap e; room := room e;
     entries := l; files := files e |}.

Definition with_files (f : list (string * list entry)) (e : index) : index :=
  {| dims := dims e; conn := conn e; cap := cap e; room := room e;
     entries := entries e; files := f |}.

Definition has (key : key_t) (e : index) : bool :=
  existsb (fun p => fst p =? key) (entries e).

Definition ok_add : Native.add_result_t := {| Native.add_error := None |}.
Definition bad_add (m : string) : Native.add_result_t :=
  {| Native.add_error := Some m |}.

Definition labeled (b : bool) : Native.labeling_result_t :=
  {| Native.labeling_error := None; Native.completed := b |}.

Definition ok_file : Native.serialization_result_t :=
  {| Native.serialization_error := None |}.
Definition bad_file (m : string) : Native.serialization_result_t :=
  {| Native.serialization_error := Some m |}.

Definition reserve (members : Z) (e : index) : index * bool :=
  if members <=? cap e then (e, true)
  else if members <=? room e then (with_cap members e, true)
  else (e, false).

Definition add (key : key_t) (vector : list f32) (e : index)
    : index * Native.raised Native.add_result_t :=
  if cap e <=? len (entries e) then
    (e, Native.Returns (bad_add "Reserve capacity ahead of insertions!"))
  else if has key e then
    (e, Native.Returns (bad_add "Duplicate keys not allowed in high-level wrappers"))
  else (with_entries (entries e ++ [(key, vector)]) e, Native.Returns ok_add).

Definition same_vector (a b : list f32) : bool :=
  if list_eq_dec Z.eq_dec a b then true else false.

(** Bit patterns of [0.0f] and [1.0f]. *)
Definition distance (a b : list f32) : f32 :=
  if same_vector a b then 0 else 1065353216.

Definition search (vector : list f32) (wanted : Z) (e : index)
    : index * Native.raised Native.search_result_t :=
  let near := filter (fun p => same_vector vector (snd p)) (entries e) in
  let far := filter (fun p => negb (same_vector vector (snd p))) (entries e) in
  (e, Native.Returns
        {| Native.search_error := None;
           Native.found :=
             firstn (Z.to_nat wanted)
               (map (fun p => (fst p, distance vector (snd p)))
                    (near ++ far)) |}).

Definition remove (key : key_t) (e : index)
    : index * Native.raised Native.labeling_result_t :=
  if has key e then
    (with_entries (filter (fun p => negb (fst p =? key)) (entries e)) e,
     Native.Returns (labeled true))
  else (e, Native.Returns (labeled false)).

Definition rename (from to : key_t) (e : index)
    : index * Native.raised Native.labeling_result_t :=
  if has to e then
    (e, Native.Returns
          {| Native.labeling_error := Some "Renaming impossible, the key is already in use";
             Native.completed := false |})
  else if has from e then
    (with_entries
       (map (fun p => if fst p =? from then (to, snd p) else p) (entries e)) e,
     Native.Returns (labeled true))
  else (e, Native.Returns (labeled false)).

Definition save (path : string) (e : index)
    : index * Native.raised Native.serialization_result_t :=
  if String.eqb path "" then
    (e, Native.Returns (bad_file "Can't open file for writing"))
  else (with_files ((path, entries e) :: files e) e, Native.Returns ok_file).

Definition load (path : string) (e : index)
    : index * Native.raised Native.serialization_result_t :=
  match find (fun f => String.eqb (fst f) path) (files e) with
  | Some f =>
      (with_cap (Z.max (cap e) (len (snd f))) (with_entries (snd f) e),
       Native.Returns ok_file)
  | None => (e, Native.Returns (bad_file "Can't open file for reading"))
  end.

(** Modelled from the spec: [ceil2] is declared in the engine's header;
    the specification calls it [next_power_of_two].  The usual 64-bit
    rounding by smearing the highest set bit. *)
Definition ceil2 (v : Z) : Z :=
  let v := wrap64 (v - 1) in
  let v := Z.lor v (Z.shiftr v 1) in
  let v := Z.lor v (Z.shiftr v 2) in
  let v := Z.lor v (Z.shiftr v 4) in
  let v := Z.lor v (Z.shiftr v 8) in
  let v := Z.lor v (Z.shiftr v 16) in
  let v := Z.lor v (Z.shiftr v 32) in
  wrap64 (v + 1).

Definition known {T : Type} (v : T) : Native.expected_gt T :=
  {| Native.expected_value := v; Native.expected_error := None |}.

(** Modelled from the spec: [scalar_kind_from_name] is declared in the
    engine's header.  "Recognized quantization names: f64, f32, f16, i8,
    b1 (1-bit packed).  Unrecognized names fail construction." *)
Definition scalar_kind_from_name (name : string)
    : Native.expected_gt Native.scalar_kind_t.t :=
  if String.eqb name "f64" then known Native.scalar_kind_t.f64_k
  else if String.eqb name "f32" then known Native.scalar_kind_t.f32_k
  else if String.eqb name "f16" then known Native.scalar_kind_t.f16_k
  else if String.eqb name "i8" then known Native.scalar_kind_t.i8_k
  else if String.eqb name "b1" then known Native.scalar_kind_t.b1x8_k
  else {| Native.expected_value := Native.scalar_kind_t.unknown_k;
          Native.expected_error :=
            Some "Unknown type, choose: f64, f32, f16, i8, b1" |}.

(** Modelled from the spec: [metric_from_name] is declared in the engine's
    header.  "Recognized metric names: ip, l2sq, cos, pearson, haversine,
    hamming, tanimoto, sorensen.  Unrecognized names fail construction." *)
Definition metric_from_name (name : string)
    : Native.expected_gt Native.metric_kind_t.t :=
  if String.eqb name "ip" then known Native.metric_kind_t.ip_k
  else if String.eqb name "l2sq" then known Native.metric_kind_t.l2sq_k
  else if String.eqb name "cos" then known Native.metric_kind_t.cos_k
  else if String.eqb name "pearson" then known Native.metric_kind_t.pearson_k
  else if String.eqb name "haversine" then
    known Native.metric_kind_t.haversine_k
  else if String.eqb name "hamming" then known Native.metric_kind_t.hamming_k
  else if String.eqb name "tanimoto" then
    known Native.metric_kind_t.tanimoto_k
  else if String.eqb name "sorensen" then
    known Native.metric_kind_t.sorensen_k
  else {| Native.expected_value := Native.metric_kind_t.unknown_k;
          Native.expected_error :=
            Some "Unknown metric, choose: ip, l2sq, cos, pearson, haversine, hamming, tanimoto, sorensen" |}.

Definition make (metric : Native.metric_punned_t)
    (config : Native.index_dense_config_t) : index :=
  {| dims := Native.metric_dimensions metric;
     conn := Native.config_connectivity config;
     cap := 0;
     room := 2 ^ 32;
     entries := [];
     files := [] |}.

#[global] Instance engine : Native.Engine index :=
  {| Native.make := make;
     Native.dimensions := dims;
     Native.size e := len (entries e);
     Native.capacity := cap;
     Native.connectivity := conn;
     Native.reserve := reserve;
     Native.add := add;
     Native.search := search;
     Native.remove := remove;
     Native.rename := rename;
     Native.contains k e := Native.Returns (has k e);
     Native.save := save;
     Native.load := load;
     Native.view := load;
     Native.default_connectivity := 16;
     Native.default_expansion_add := 128;
     Native.default_expansion_search := 64;
     Native.scalar_kind_from_name := scalar_kind_from_name;
     Native.metric_from_name := metric_from_name;
     Native.ceil2 := ceil2 |}.

(** An index of two dimensions with the given capacity, allocator room and
    entries, as [make], [reserve] and [add] would leave it. *)
Definition fresh (capacity room : Z) (l : list entry) : index :=
  {| dims := 2; conn := 16; cap := capacity; room := room;
     entries := l; files := [] |}.

End Reference.

(** ** Vocabulary of the statements *)

Module Batch.
Import Napi.
Local Open Scope string_scope.
Local Open Scope list_scope.
Local Open Scope Z_scope.

(** The keys and vectors of a batch whose elements are BigInts and
    Float32Arrays, pairwise; [None] when some element is neither. *)
Fixpoint typed (keys_js vectors_js : list Value)
    : option (list (Z * list f32)) :=
  match keys_js, vectors_js with
  | BigInt key_js :: keys', Float32Array vector_js :: vectors' =>
      option_map (cons (key_js, vector_js)) (typed keys' vectors')
  | _ :: _, _ :: _ => None
  | _, _ => Some []
  end.

(** An element passes the two checks of the lambda: its key fits 64 bits
    unsigned and its vector has the dimensions of the index. *)
Definition valid (index_dimensions : Z) (p : Z * list f32) : bool :=
  snd (Uint64Value (fst p)) && (len (snd p) =? index_dimensions).

(** The error an element that does not pass is reported with. *)
Definition rejection (p : Z * list f32) : Error :=
  if snd (Uint64Value (fst p)) then TypeError "Wrong number of dimensions"
  else TypeError "Keys must be unsigned integers".

(** The native call a valid element is passed on with. *)
Definition passed (p : Z * list f32) : call :=
  call_add (fst (Uint64Value (fst p))) (snd p).

End Batch.

(** How a batch ends, for the statements below: [handed] are the elements
    the engine's [add] was called for, [rest] the ones it was not. *)
Definition batch_end (d : Z) (pairs handed rest : list (Z * list f32))
    (thrown : list Napi.Error) : Prop :=
  pairs = (handed ++ rest)%list
  /\ forallb (Batch.valid d) handed = true
  /\ ((thrown = [] /\ rest = [])
      \/ (exists p rest',
            rest = p :: rest' /\ Batch.valid d p = false
            /\ thrown = [Batch.rejection p])
      \/ (exists error, thrown = [error] /\ handed <> [])).

Module Options.
Import Napi.
Local Open Scope string_scope.

(** A numeric option is absent or a BigInt; a name is absent or a string:
    the configuration bags on which the casts of the constructor are
    defined. *)
Definition uint_typed (params : Value) (name : string) : bool :=
  negb (Has params name) || IsBigInt (Get params name).

Definition name_typed (params : Value) (name : string) : bool :=
  negb (Has params name) || IsString (Get params name).

Definition typed (params : Value) : bool :=
  uint_typed params "dimensions"
  && uint_typed params "capacity"
  && uint_typed params "connectivity"
  && uint_typed params "expansion_add"
  && uint_typed params "expansion_search"
  && name_typed params "quantization"
  && name_typed params "metric".

End Options.

Definition is_add (c : call) : bool :=
  match c with call_add _ _ => true | _ => false end.

Definition power_of_two (n : Z) : Prop := exists k : Z, 0 <= k /\ n = 2 ^ k.

(** Where a traced engine starts: nothing called yet. *)
Definition untraced {E : Type} (e : E) : traced E :=
  {| inner := e; calls := [] |}.

(** Modelled from the spec: the engine's [remove] and [contains] are
    declared in the engine's header.  Sections 4.4 and 8: removing an absent
    key "succeeds with completed=false" and "does not change size()";
    removing a present key "succeeds with true", "decreases size() by 1, and
    subsequent contains(key) returns false". *)
Definition remove_contract {E : Type} `{Native.Engine E}
    (key : key_t) (e : E) : Prop :=
  match Native.contains key e with
  | Native.Returns false =>
      exists e',
        Native.remove key e =
          (e', Native.Returns {| Native.labeling_error := None;
                                 Native.completed := false |})
        /\ Native.size e' = Native.size e
  | Native.Returns true =>
      exists e',
        Native.remove key e =
          (e', Native.Returns {| Native.labeling_error := None;
                                 Native.completed := true |})
        /\ Native.size e' = Native.size e - 1
        /\ Native.contains key e' = Native.Returns false
  | _ => True
  end.

(** ** Vocabulary of the further statements *)

Module Marshalled.

(** What [Index::Add] may hand to the engine: a reservation, or an [add]
    whose key fits 64 bits unsigned and whose vector has the dimensions of
    the index. *)
Definition by_add (index_dimensions : Z) (c : call) : bool :=
  match c with
  | call_reserve _ => true
  | call_add key vector =>
      (0 <=? key) && (key <? 2 ^ 64) && (len vector =? index_dimensions)
  | _ => false
  end.

(** The calls of [Index::Add] on which its casts are what they say: the
    vector of the single form is a Float32Array, and a batch of as many keys
    as vectors has BigInts for keys and Float32Arrays for vectors. *)
Definition cast_as_written (ctx : list Napi.Value) : bool :=
  match Napi.arg 0 ctx, Napi.arg 1 ctx with
  | Napi.Array keys_js, Napi.Array vectors_js =>
      negb (len keys_js =? len vectors_js)
      || match Batch.typed keys_js vectors_js with
         | Some _ => true
         | None => false
         end
  | Napi.BigInt _, Napi.BigUint64Array _ => false
  | Napi.BigInt _, Napi.OtherTypedArray => false
  | _, _ => true
  end.

(** The capacity a configuration bag asks for: the low 64 bits of its
    [capacity], nothing when it has none. *)
Definition capacity_of (params : Napi.Value) : Z :=
  if Napi.Has params "capacity" then
    match Napi.Get params "capacity" with
    | Napi.BigInt z => wrap64 z
    | _ => 0
    end
  else 0.

(** The index a single [add] works on once the reservation, if any, is
    made. *)
Definition reserved_for_one {E : Type} `{Native.Engine E} (e : E) : E :=
  if wrap64 (Native.size e + 1) >=? Native.capacity e
  then fst (Native.reserve (Native.ceil2 (wrap64 (Native.size e + 1))) e)
  else e.

End Marshalled.

(** Modelled from the spec: section 4.6, "every engine call can report
    failure via an error-bearing result object or via a native
    memory-allocation exception".  An engine out of order: each call that can
    throw does, with [std::bad_alloc] or with something else, and leaves the
    index as it was. *)
Module Faulty.

Record index (E : Type) : Type :=
  { healthy : E;
    (* [true]: std::bad_alloc; [false]: any other exception *)
    out_of_memory : bool }.
Arguments healthy {E} _.
Arguments out_of_memory {E} _.

Definition thrown {E A : Type} (e : index E) : Native.raised A :=
  if out_of_memory e then Native.Throws_bad_alloc else Native.Throws_other.

Definition engine {E : Type} (H : Native.Engine E) : Native.Engine (index E) :=
  {| Native.make m c :=
       {| healthy := Native.make m c; out_of_memory := true |};
     Native.dimensions e := Native.dimensions (healthy e);
     Native.size e := Native.size (healthy e);
     Native.capacity e := Native.capacity (healthy e);
     Native.connectivity e := Native.connectivity (healthy e);
     Native.reserve n e := (e, false);
     Native.add k v e := (e, thrown e);
     Native.search v n e := (e, thrown e);
     Native.remove k e := (e, thrown e);
     Native.rename a b e := (e, thrown e);
     Native.contains k e := thrown e;
     Native.save p e := (e, thrown e);
     Native.load p e := (e, thrown e);
     Native.view p e := (e, thrown e);
     Native.default_connectivity := Native.default_connectivity;
     Native.default_expansion_add := Native.default_expansion_add;
     Native.default_expansion_search := Native.default_expansion_search;
     Native.scalar_kind_from_name := Native.scalar_kind_from_name;
     Native.metric_from_name := Native.metric_from_name;
     Native.ceil2 := Native.ceil2 |}.

End Faulty.

(** * Proofs *)

(** ** Buffers *)

Section Buffers.
Context {A : Type}.

Lemma fill_length (src dst : list A) :
  List.length (Native.fill src dst) = List.length dst.
Proof.
  revert dst; induction src as [|s src IH]; intros [|d dst]; simpl; auto.
Qed.

Lemma fill_prefix (src dst : list A) :
  (List.length src <= List.length dst)%nat ->
  Native.fill src dst = src ++ skipn (List.length src) dst.
Proof.
  revert dst; induction src as [|s src IH]; intros [|d dst] Hle;
    simpl in *; auto; try lia.
  f_equal; apply IH; lia.
Qed.

Lemma skipn_repeat (x : A) (n m : nat) :
  skipn n (repeat x m) = repeat x (m - n).
Proof.
  revert m; induction n as [|n IH]; intros [|m]; simpl; auto.
Qed.

Lemma firstn_fill (src dst : list A) :
  (List.length src <= List.length dst)%nat ->
  firstn (List.length src) (Native.fill src dst) = src.
Proof.
  intros Hle; rewrite fill_prefix by exact Hle.
  rewrite firstn_app, Nat.sub_diag, firstn_all; simpl.
  apply app_nil_r.
Qed.

End Buffers.

Lemma len_nonneg {A : Type} (l : list A) : 0 <= len l.
Proof. unfold len; lia. Qed.

Lemma len_map {A B : Type} (f : A -> B) (l : list A) : len (map f l) = len l.
Proof. unfold len; rewrite length_map; reflexivity. Qed.

Lemma len_fill {A : Type} (src dst : list A) :
  len (Native.fill src dst) = len dst.
Proof. unfold len; rewrite fill_length; reflexivity. Qed.

Lemma len_repeat {A : Type} (x : A) (n : Z) :
  0 <= n -> len (repeat x (Z.to_nat n)) = n.
Proof. intros Hn; unfold len; rewrite repeat_length; lia. Qed.

Lemma wrap64_small (z : Z) : 0 <= z < 2 ^ 64 -> wrap64 z = z.
Proof. intros Hz; unfold wrap64; apply Z.mod_small; exact Hz. Qed.

Lemma Uint64Value_small (z : Z) :
  0 <= z < 2 ^ 64 -> Napi.Uint64Value z = (z, true).
Proof.
  intros Hz; unfold Napi.Uint64Value; rewrite wrap64_small by exact Hz.
  f_equal.
  destruct (Z.leb_spec 0 z), (Z.ltb_spec z (2 ^ 64)); simpl; auto; lia.
Qed.

(** ** Search results *)

Lemma truncate_length {A : Type} (n : Z) (l : list A) :
  0 <= n -> len (Rust.truncate n l) = Z.min n (len l).
Proof.
  intros Hn; unfold len, Rust.truncate; rewrite length_firstn; lia.
Qed.

Lemma truncate_fill {A : Type} (src dst : list A) :
  len src <= len dst ->
  Rust.truncate (len src) (Native.fill src dst) = src.
Proof.
  unfold len, Rust.truncate; intros Hle.
  rewrite Nat2Z.id; apply firstn_fill; lia.
Qed.

Lemma zeroed_lengths (count : Z) :
  0 <= count ->
  len (Rust.keys (Rust.zeroed count)) = count
  /\ len (Rust.distances (Rust.zeroed count)) = count.
Proof. intros Hc; simpl; split; apply len_repeat; exact Hc. Qed.

Lemma zeroed_zero (count : Z) :
  Forall (fun k => k = 0) (Rust.keys (Rust.zeroed count))
  /\ Forall (fun d => d = f32_zero) (Rust.distances (Rust.zeroed count)).
Proof.
  split; apply Forall_forall; intros x Hx; simpl in Hx;
    apply repeat_spec in Hx; exact Hx.
Qed.

Lemma rust_search_in_contract {E : Type} `{Native.Engine E}
    (vector : list f32) (count : Z) (e e' : E)
    (result : Native.search_result_t) :
  0 <= count ->
  Native.search vector count e = (e', Native.Returns result) ->
  Native.search_error result = None ->
  len (Native.found result) <= count ->
  Rust.search vector count e =
  (e', Rust.Value {| Rust.keys := map fst (Native.found result);
                     Rust.distances := map snd (Native.found result) |}).
Proof.
  intros Hcount Hnative Herror Hle.
  unfold Rust.search. rewrite Hnative, Herror. unfold Native.dump_to.
  cbn [Rust.keys Rust.distances Rust.zeroed].
  rewrite <- (len_map fst (Native.found result)) at 1.
  rewrite truncate_fill by (rewrite len_map, len_repeat; lia).
  rewrite <- (len_map snd (Native.found result)) at 1.
  rewrite truncate_fill by (rewrite len_map, len_repeat; lia).
  reflexivity.
Qed.

(** C10.  Every [Matches] the Rust [search] returns comes from a native
    result without error.  Its two vectors start as [count] zeros, are filled
    by [dump_to] and are cut to the number of matches the engine reported:
    they have the same length, never more than the requested [count], and
    when the engine reports no more than it was asked for that length is the
    reported number and the vectors are the matches themselves. *)
Theorem rust_search_matches_invariant {E : Type} `{Native.Engine E}
    (vector : list f32) (count : Z) (e e' : E) (m : Rust.Matches) :
  0 <= count ->
  Rust.search vector count e = (e', Rust.Value m) ->
  exists result,
    Native.search vector count e = (e', Native.Returns result)
    /\ Native.search_error result = None
    /\ Forall (fun k => k = 0) (Rust.keys (Rust.zeroed count))
    /\ Forall (fun d => d = f32_zero) (Rust.distances (Rust.zeroed count))
    /\ len (Rust.keys (Rust.zeroed count)) = count
    /\ len (Rust.distances (Rust.zeroed count)) = count
    /\ Rust.keys m =
         Rust.truncate (len (Native.found result))
           (Native.fill (map fst (Native.found result))
              (Rust.keys (Rust.zeroed count)))
    /\ Rust.distances m =
         Rust.truncate (len (Native.found result))
           (Native.fill (map snd (Native.found result))
              (Rust.distances (Rust.zeroed count)))
    /\ len (Rust.keys m) = len (Rust.distances m)
    /\ len (Rust.keys m) <= count
    /\ (len (Native.found result) <= count ->
        len (Rust.keys m) = len (Native.found result)
        /\ Rust.keys m = map fst (Native.found result)
        /\ Rust.distances m = map snd (Native.found result)).
Proof.
  intros Hcount Hsearch. unfold Rust.search in Hsearch.
  destruct (Native.search vector count e) as [e1 [result| |]] eqn:Hnative;
    try discriminate.
  destruct (Native.search_error result) as [message|] eqn:Herror;
    try discriminate.
  unfold Native.dump_to in Hsearch.
  injection Hsearch as He Hm. subst e1 m. cbn [Rust.keys Rust.distances].
  destruct (zeroed_lengths count Hcount) as [Hk Hd].
  destruct (zeroed_zero count) as [Zk Zd].
  exists result.
  repeat match goal with |- _ /\ _ => split end; auto.
  - rewrite !truncate_length, !len_fill, !len_repeat
      by first [apply len_nonneg | exact Hcount].
    reflexivity.
  - rewrite truncate_length, len_fill, len_repeat
      by first [apply len_nonneg | exact Hcount].
    lia.
  - intros Hle.
    assert (Hkeys :
      Rust.truncate (len (Native.found result))
        (Native.fill (map fst (Native.found result))
           (repeat 0 (Z.to_nat count))) = map fst (Native.found result)).
    { rewrite <- (len_map fst (Native.found result)).
      apply truncate_fill. rewrite len_map, len_repeat; lia. }
    assert (Hdistances :
      Rust.truncate (len (Native.found result))
        (Native.fill (map snd (Native.found result))
           (repeat f32_zero (Z.to_nat count))) = map snd (Native.found result)).
    { rewrite <- (len_map snd (Native.found result)).
      apply truncate_fill. rewrite len_map, len_repeat; lia. }
    rewrite Hkeys, Hdistances, len_map. repeat split; reflexivity.
Qed.

Lemma rust_search_matches_invariant_witness :
  let e := Reference.fresh 4 4 [(7, [0; 0]); (9, [1; 1])] in
  let m := {| Rust.keys := [7; 9]; Rust.distances := [0; 1065353216] |} in
  Rust.search [0; 0] 3 e = (e, Rust.Value m)
  /\ len (Rust.keys m) = len (Rust.distances m)
  /\ len (Rust.keys m) <= 3
  /\ Forall (fun k => k = 0) (Rust.keys (Rust.zeroed 3)).
Proof.
  intros e m.
  assert (Hcount : 0 <= 3) by lia.
  assert (Hsearch : Rust.search [0; 0] 3 e = (e, Rust.Value m))
    by (vm_compute; reflexivity).
  destruct (rust_search_matches_invariant [0; 0] 3 e e m Hcount Hsearch)
    as (result & _ & _ & Hzero & _ & _ & _ & _ & _ & Hsame & Hmost & _).
  repeat split; assumption.
Defined.

Lemma fill_zeros {A : Type} (src : list A) (zero : A) (wanted : Z) :
  len src <= wanted ->
  Native.fill src (repeat zero (Z.to_nat wanted)) =
  (src ++ repeat zero (Z.to_nat (wanted - len src)))%list.
Proof.
  intros Hle. pose proof (len_nonneg src) as Hsrc.
  rewrite fill_prefix by (rewrite repeat_length; unfold len in *; lia).
  rewrite skipn_repeat. do 2 f_equal. unfold len in *; lia.
Qed.

(** C2, the statement as given fails on the JavaScript layer: a search for
    three matches that finds one returns buffers of length three. *)
Lemma js_search_keeps_wanted_length :
  exists e' keys distances,
    JS.Search [Napi.Float32Array [0; 0]; Napi.BigInt 3]
      (Reference.fresh 4 4 [(7, [0; 0])]) =
    Some (e', Napi.give (Napi.Object
            [("keys"%string, Napi.BigUint64Array keys);
             ("distances"%string, Napi.Float32Array distances);
             ("count"%string, Napi.BigInt 1)]))
    /\ len keys <> 1 /\ len distances <> 1.
Proof.
  exists (Reference.fresh 4 4 [(7, [0; 0])]), [7; 0; 0], [0; 0; 0].
  split; [vm_compute; reflexivity|]. split; vm_compute; discriminate.
Qed.

(** C2, amended.  For a search of the right dimensions that the engine
    answers without error and with [count <= k] matches: the JavaScript
    layer returns both buffers at their allocated length [k], the matches in
    the first [count] entries and zeros after them, and a [count] field with
    that number; the Rust layer returns both vectors truncated to [count],
    holding exactly the matches. *)
Theorem search_buffers_and_count {E : Type} `{Native.Engine E}
    (vector : list f32) (wanted : Z) (rest : list Napi.Value)
    (e e' : E) (result : Native.search_result_t) :
  0 <= wanted < 2 ^ 64 ->
  len vector = Native.dimensions e ->
  Native.search vector wanted e = (e', Native.Returns result) ->
  Native.search_error result = None ->
  len (Native.found result) <= wanted ->
  let count := len (Native.found result) in
  (exists keys distances,
      JS.Search (Napi.Float32Array vector :: Napi.BigInt wanted :: rest) e =
      Some (e', Napi.give (Napi.Object
              [("keys"%string, Napi.BigUint64Array keys);
               ("distances"%string, Napi.Float32Array distances);
               ("count"%string, Napi.BigInt count)]))
      /\ len keys = wanted /\ len distances = wanted
      /\ keys = (map fst (Native.found result)
                 ++ repeat 0 (Z.to_nat (wanted - count)))%list
      /\ distances = (map snd (Native.found result)
                      ++ repeat f32_zero (Z.to_nat (wanted - count)))%list)
  /\ (exists m,
      Rust.search vector wanted e = (e', Rust.Value m)
      /\ len (Rust.keys m) = count /\ len (Rust.distances m) = count
      /\ Rust.keys m = map fst (Native.found result)
      /\ Rust.distances m = map snd (Native.found result)).
Proof.
  intros Hwanted Hdim Hnative Herror Hcount count. split.
  - exists (Native.fill (map fst (Native.found result))
              (repeat 0 (Z.to_nat wanted))),
           (Native.fill (map snd (Native.found result))
              (repeat f32_zero (Z.to_nat wanted))).
    split; [|split; [|split; [|split]]].
    + unfold JS.Search. cbn [Napi.IsTypedArray negb].
      rewrite Hdim, Z.eqb_refl. cbn [negb].
      rewrite Uint64Value_small by exact Hwanted. cbn [negb].
      rewrite Hnative, Herror. reflexivity.
    + rewrite len_fill, len_repeat; lia.
    + rewrite len_fill, len_repeat; lia.
    + rewrite fill_zeros by (rewrite len_map; exact Hcount).
      rewrite len_map. reflexivity.
    + rewrite fill_zeros by (rewrite len_map; exact Hcount).
      rewrite len_map. reflexivity.
  - exists {| Rust.keys := map fst (Native.found result);
              Rust.distances := map snd (Native.found result) |}.
    cbn [Rust.keys Rust.distances]. rewrite !len_map.
    repeat split; try reflexivity.
    apply rust_search_in_contract; auto. lia.
Qed.

Lemma search_buffers_and_count_witness :
  let e := Reference.fresh 4 4 [(7, [0; 0])] in
  (exists m,
      Rust.search [0; 0] 3 e = (e, Rust.Value m) /\ len (Rust.keys m) = 1)
  /\ (exists keys distances,
      JS.Search [Napi.Float32Array [0; 0]; Napi.BigInt 3] e =
      Some (e, Napi.give (Napi.Object
              [("keys"%string, Napi.BigUint64Array keys);
               ("distances"%string, Napi.Float32Array distances);
               ("count"%string, Napi.BigInt 1)]))
      /\ len keys = 3).
Proof.
  intros e.
  assert (Hwanted : 0 <= 3 < 2 ^ 64) by lia.
  assert (Hdim : len [0; 0] = Native.dimensions e) by reflexivity.
  assert (Hnative :
    Native.search [0; 0] 3 e =
    (e, Native.Returns {| Native.search_error := None;
                          Native.found := [(7, 0)] |}))
    by (vm_compute; reflexivity).
  assert (Hcount : len [(7, 0)] <= 3) by (vm_compute; discriminate).
  destruct (search_buffers_and_count [0; 0] 3 [] e e _
              Hwanted Hdim Hnative eq_refl Hcount)
    as [(keys & distances & Hjs & Hkeys & _) (m & Hrust & Hm & _)].
  split.
  - exists m. split; assumption.
  - exists keys, distances. split; assumption.
Defined.

(** ** What an insertion does to any engine *)

Section Elements.
Context {E : Type} `{Native.Engine E}.
Import Napi.

Lemma add_one_rejected (index_dimensions key_js : Z) (vector_js : list f32)
    (e : E) :
  Batch.valid index_dimensions (key_js, vector_js) = false ->
  JS.add_one index_dimensions key_js vector_js e =
  (e, [Batch.rejection (key_js, vector_js)]).
Proof.
  unfold JS.add_one, Batch.valid, Batch.rejection. cbn [fst snd].
  destruct (Uint64Value key_js) as [key lossless]. cbn [fst snd].
  destruct lossless; cbn [negb andb]; [|reflexivity].
  intros ->. reflexivity.
Qed.

Lemma add_one_capacity (index_dimensions key_js : Z) (vector_js : list f32)
    (e : E) :
  (forall k v x, Native.capacity (fst (Native.add k v x)) = Native.capacity x) ->
  Native.capacity (fst (JS.add_one index_dimensions key_js vector_js e)) =
  Native.capacity e.
Proof.
  intros Hadd. unfold JS.add_one.
  destruct (Uint64Value key_js) as [key lossless].
  destruct lossless; cbn [negb]; [|reflexivity].
  destruct (len vector_js =? index_dimensions); cbn [negb]; [|reflexivity].
  specialize (Hadd key vector_js e).
  destruct (Native.add key vector_js e) as [e1 [result| |]];
    cbn [fst] in *; try assumption.
  destruct (Native.add_error result); assumption.
Qed.

(** The lambda throws at most once. *)
Lemma add_one_errors (d key_js : Z) (vector_js : list f32) (e : E) :
  (List.length (snd (JS.add_one d key_js vector_js e)) <= 1)%nat.
Proof.
  unfold JS.add_one. destruct (Uint64Value key_js) as [key lossless].
  destruct lossless; cbn [negb]; [|cbn; lia].
  destruct (len vector_js =? d); cbn [negb]; [|cbn; lia].
  destruct (Native.add key vector_js e) as [e1 [result| |]];
    try (cbn; lia).
  destruct (Native.add_error result); cbn; lia.
Qed.

Lemma add_each_capacity (index_dimensions : Z) (keys_js vectors_js : list Value) :
  (forall k v (x : E),
      Native.capacity (fst (Native.add k v x)) = Native.capacity x) ->
  forall (e e' : E) errors,
    JS.add_each index_dimensions keys_js vectors_js e = Some (e', errors) ->
    Native.capacity e' = Native.capacity e.
Proof.
  intros Hadd. revert vectors_js.
  induction keys_js as [|key keys IH]; intros vectors_js e e' errors Heach.
  - cbn in Heach. injection Heach as <- _. reflexivity.
  - destruct vectors_js as [|vector vectors].
    + destruct key; cbn in Heach; injection Heach as <- _; reflexivity.
    + destruct key; try discriminate Heach;
        destruct vector; try discriminate Heach.
      cbn [JS.add_each] in Heach.
      pose proof (add_one_capacity index_dimensions z data e Hadd) as Hone.
      destruct (JS.add_one index_dimensions z data e) as [e1 errors1].
      cbn [fst] in Hone. destruct errors1 as [|error more].
      * rewrite (IH vectors e1 e' errors Heach). exact Hone.
      * injection Heach as <- _. exact Hone.
Qed.


(** The loop is defined on a batch of BigInts and Float32Arrays. *)
Lemma add_each_defined (d : Z) (keys_js vectors_js : list Value) :
  forall (pairs : list (Z * list f32)) (e : E),
    Batch.typed keys_js vectors_js = Some pairs ->
    exists r, JS.add_each d keys_js vectors_js e = Some r.
Proof.
  revert vectors_js.
  induction keys_js as [|key keys IH]; intros vectors_js pairs e Htyped.
  - cbn. eexists; reflexivity.
  - destruct vectors_js as [|vector vectors].
    + destruct key; cbn; eexists; reflexivity.
    + destruct key; try discriminate Htyped;
        destruct vector; try discriminate Htyped.
      cbn [Batch.typed] in Htyped.
      destruct (Batch.typed keys vectors) as [tail|] eqn:Htail;
        try discriminate Htyped.
      cbn [JS.add_each].
      destruct (JS.add_one d z data e) as [e1 [|error more]].
      * exact (IH vectors tail e1 Htail).
      * eexists; reflexivity.
Qed.

(** [Index::Add] is defined on the calls that cast as written. *)
Lemma Add_defined (ctx : list Value) (e : E) :
  Marshalled.cast_as_written ctx = true ->
  exists r, JS.Add ctx e = Some r.
Proof.
  unfold JS.Add, Marshalled.cast_as_written.
  destruct (len ctx <? 2); [intros _; eexists; reflexivity|].
  destruct (arg 0 ctx) as [| | | |key_js| | | |keys_js|];
    destruct (arg 1 ctx) as [| | | | |vector_js| | |vectors_js|];
    cbn [IsTypedArray]; intros Hcast;
    try discriminate Hcast; try (eexists; reflexivity).
  destruct (len keys_js =? len vectors_js); cbn [negb orb] in *;
    [|eexists; reflexivity].
  destruct (Batch.typed keys_js vectors_js) as [pairs|] eqn:Htyped;
    try discriminate Hcast.
  destruct (wrap64 (Native.size e + len keys_js) >=? Native.capacity e).
  - destruct (Native.reserve
                (Native.ceil2 (wrap64 (Native.size e + len keys_js))) e)
      as [e1 reserved].
    destruct reserved; cbn [negb]; [|eexists; reflexivity].
    destruct (add_each_defined (Native.dimensions e) keys_js vectors_js
                pairs e1 Htyped) as [r ->].
    eexists; reflexivity.
  - destruct (add_each_defined (Native.dimensions e) keys_js vectors_js
                pairs e Htyped) as [r ->].
    eexists; reflexivity.
Qed.

End Elements.

(** ** The calls an insertion issues *)

Section Insertion.
Context {E : Type} `{Native.Engine E}.
Import Napi.

Lemma add_one_calls (index_dimensions key_js : Z) (vector_js : list f32)
    (t : traced E) :
  calls (fst (JS.add_one index_dimensions key_js vector_js t)) =
  (calls t ++
   if Batch.valid index_dimensions (key_js, vector_js)
   then [Batch.passed (key_js, vector_js)] else [])%list.
Proof.
  unfold JS.add_one, Batch.valid, Batch.passed. cbn [fst snd].
  destruct (Uint64Value key_js) as [key lossless]. cbn [fst snd].
  destruct lossless; cbn [negb andb]; [|symmetry; apply app_nil_r].
  destruct (len vector_js =? index_dimensions); cbn [negb];
    [|symmetry; apply app_nil_r].
  cbn [Native.add Traced]. unfold logged.
  destruct (Native.add key vector_js (inner t)) as [e1 [result| |]];
    cbn [fst snd]; try reflexivity.
  destruct (Native.add_error result); reflexivity.
Qed.

(** How the loop of a batch ends: the elements handed to the engine are
    the leading ones that pass the checks, and it stops with nothing thrown
    once they are all handed over, with the error of the first element that
    does not pass, or with one error on the element the engine was last
    called for. *)
Lemma add_each_stops (d : Z) (keys_js vectors_js : list Value) :
  forall (pairs : list (Z * list f32)) (t : traced E),
    Batch.typed keys_js vectors_js = Some pairs ->
    exists t' errors handed rest,
      JS.add_each d keys_js vectors_js t = Some (t', errors)
      /\ pairs = (handed ++ rest)%list
      /\ forallb (Batch.valid d) handed = true
      /\ calls t' = (calls t ++ map Batch.passed handed)%list
      /\ ((errors = [] /\ rest = [])
          \/ (exists p rest',
                rest = p :: rest' /\ Batch.valid d p = false
                /\ errors = [Batch.rejection p])
          \/ (exists error, errors = [error] /\ handed <> [])).
Proof.
  revert vectors_js.
  induction keys_js as [|key keys IH]; intros vectors_js pairs t Htyped.
  - cbn in Htyped. injection Htyped as <-.
    exists t, [], [], []. cbn. rewrite app_nil_r. repeat split. left; auto.
  - destruct vectors_js as [|vector vectors].
    + destruct key; cbn in Htyped; injection Htyped as <-;
        exists t, [], [], []; cbn; rewrite app_nil_r; repeat split; left; auto.
    + destruct key; try discriminate Htyped;
        destruct vector; try discriminate Htyped.
      cbn [Batch.typed] in Htyped.
      destruct (Batch.typed keys vectors) as [tail|] eqn:Htail;
        try discriminate Htyped.
      injection Htyped as <-. cbn [JS.add_each].
      destruct (Batch.valid d (z, data)) eqn:Hvalid.
      * pose proof (add_one_calls d z data t) as Hone.
        pose proof (add_one_errors d z data t) as Hmost.
        rewrite Hvalid in Hone.
        destruct (JS.add_one d z data t) as [t1 errors1].
        cbn [fst] in Hone. cbn [snd] in Hmost.
        destruct errors1 as [|error more].
        -- destruct (IH vectors tail t1 Htail)
             as (t2 & errors2 & handed & rest & Heach & Hsplit & Hall
                 & Hcalls & Hend).
           exists t2, errors2, ((z, data) :: handed), rest.
           split; [exact Heach|]. split; [rewrite Hsplit; reflexivity|].
           split; [cbn [forallb]; rewrite Hvalid, Hall; reflexivity|].
           split; [rewrite Hcalls, Hone, <- app_assoc; reflexivity|].
           destruct Hend as [Hend | [Hend | (error & Herror & _)]];
             [left; exact Hend | right; left; exact Hend |].
           right; right. exists error. split; [exact Herror | discriminate].
        -- destruct more; [|cbn in Hmost; lia].
           exists t1, [error], [(z, data)], tail.
           split; [reflexivity|]. split; [reflexivity|].
           split; [cbn [forallb]; rewrite Hvalid; reflexivity|].
           split; [exact Hone|].
           right; right. exists error. split; [reflexivity | discriminate].
      * rewrite (add_one_rejected d z data t Hvalid).
        exists t, [Batch.rejection (z, data)], [], ((z, data) :: tail).
        split; [reflexivity|]. split; [reflexivity|].
        split; [reflexivity|]. split; [cbn; rewrite app_nil_r; reflexivity|].
        right; left. exists (z, data), tail. repeat split. exact Hvalid.
Qed.

End Insertion.

Lemma len_two_more {A : Type} (a b : A) (rest : list A) :
  (len (a :: b :: rest) <? 2) = false.
Proof.
  apply Z.ltb_ge. pose proof (len_nonneg rest) as Hrest.
  unfold len in *. cbn [List.length]. lia.
Qed.

Section BatchInsertion.
Context {E : Type} `{Native.Engine E}.
Import Napi.

(** The batch form on a traced engine, in its three courses: no growth
    needed, growth reserved, growth refused. *)
Lemma Add_batch_traced (keys_js vectors_js rest : list Value)
    (pairs : list (Z * list f32)) (t : traced E) :
  len keys_js = len vectors_js ->
  Batch.typed keys_js vectors_js = Some pairs ->
  let n := wrap64 (Native.size t + len keys_js) in
  exists t' c,
    JS.Add (Array keys_js :: Array vectors_js :: rest) t = Some (t', c)
    /\ ((n >=? Native.capacity t) = false ->
        exists handed left,
          calls t' = (calls t ++ map Batch.passed handed)%list
          /\ batch_end (Native.dimensions t) pairs handed left (thrown c))
    /\ ((n >=? Native.capacity t) = true ->
        snd (Native.reserve (Native.ceil2 n) (inner t)) = true ->
        exists handed left,
          calls t' =
            (calls t ++ call_reserve (Native.ceil2 n)
               :: map Batch.passed handed)%list
          /\ batch_end (Native.dimensions t) pairs handed left (thrown c))
    /\ ((n >=? Native.capacity t) = true ->
        snd (Native.reserve (Native.ceil2 n) (inner t)) = false ->
        t' = {| inner := fst (Native.reserve (Native.ceil2 n) (inner t));
                calls := (calls t ++ [call_reserve (Native.ceil2 n)])%list |}
        /\ c = throw "Out of memory!").
Proof.
  intros Hlen Htyped n. subst n.
  unfold JS.Add. rewrite len_two_more. cbn [arg nth].
  rewrite <- Hlen, Z.eqb_refl. cbn [negb].
  cbn [Native.size Native.capacity Native.dimensions Native.ceil2
       Native.reserve Traced].
  set (n := wrap64 (Native.size (inner t) + len keys_js)).
  set (d := Native.dimensions (inner t)).
  destruct (n >=? Native.capacity (inner t)) eqn:Hgrow.
  - unfold logged.
    destruct (Native.reserve (Native.ceil2 n) (inner t)) as [e1 reserved].
    cbn [fst snd]. destruct reserved; cbn [negb].
    + destruct (add_each_stops d keys_js vectors_js pairs
                  {| inner := e1;
                     calls := (calls t ++ [call_reserve (Native.ceil2 n)])%list |}
                  Htyped)
        as (t' & errors & handed & left & -> & Hsplit & Hall & Hcalls & Hend).
      cbn [option_map]. unfold JS.thrown_all. cbn [fst snd].
      eexists _, _. split; [reflexivity|].
      split; [discriminate|]. split; [|discriminate].
      intros _ _. exists handed, left. split.
      * rewrite Hcalls. cbn [calls]. rewrite <- app_assoc. reflexivity.
      * cbn [thrown]. repeat split; assumption.
    + eexists _, _. split; [reflexivity|].
      split; [discriminate|]. split; [discriminate|].
      intros _ _. split; reflexivity.
  - destruct (add_each_stops d keys_js vectors_js pairs t Htyped)
      as (t' & errors & handed & left & -> & Hsplit & Hall & Hcalls & Hend).
    cbn [option_map]. unfold JS.thrown_all. cbn [fst snd].
    eexists _, _. split; [reflexivity|].
    split; [|split; discriminate].
    intros _. exists handed, left. split; [exact Hcalls|].
    cbn [thrown]. repeat split; assumption.
Qed.

End BatchInsertion.

Lemma passed_are_adds (l : list (Z * list f32)) :
  forallb is_add (map Batch.passed l) = true.
Proof. induction l as [|p l IH]; cbn; auto. Qed.




(** ** Growing the capacity *)

Section SingleInsertion.
Context {E : Type} `{Native.Engine E}.
Import Napi.

(** The single form: the reservation, then the lambda. *)
Lemma Add_single (key_js : Z) (vector_js : list f32) (rest : list Value)
    (e : E) :
  JS.Add (BigInt key_js :: Float32Array vector_js :: rest) e =
  Some (JS.thrown_all
          (JS.add_one (Native.dimensions e) key_js vector_js
             (if wrap64 (Native.size e + 1) >=? Native.capacity e
              then fst (Native.reserve
                          (Native.ceil2 (wrap64 (Native.size e + 1))) e)
              else e))).
Proof. unfold JS.Add. rewrite len_two_more. reflexivity. Qed.

End SingleInsertion.

Section SingleInsertionTraced.
Context {E : Type} `{Native.Engine E}.
Import Napi.

Lemma Add_single_traced (key_js : Z) (vector_js : list f32)
    (rest : list Value) (t : traced E) :
  let n := wrap64 (Native.size t + 1) in
  exists t' c,
    JS.Add (BigInt key_js :: Float32Array vector_js :: rest) t = Some (t', c)
    /\ calls t' =
       (calls t
        ++ (if n >=? Native.capacity t
            then [call_reserve (Native.ceil2 n)] else [])
        ++ (if Batch.valid (Native.dimensions t) (key_js, vector_js)
            then [Batch.passed (key_js, vector_js)] else []))%list.
Proof.
  intros n. subst n. rewrite Add_single.
  cbn [Native.size Native.capacity Native.dimensions Native.ceil2
       Native.reserve Traced].
  set (n := wrap64 (Native.size (inner t) + 1)).
  set (d := Native.dimensions (inner t)).
  eexists _, _. split; [reflexivity|].
  unfold JS.thrown_all. cbn [fst].
  rewrite add_one_calls. rewrite app_assoc. f_equal.
  destruct (n >=? Native.capacity (inner t)).
  - reflexivity.
  - symmetry; apply app_nil_r.
Qed.

Lemma Rust_add_calls (key : key_t) (vector : list f32) (t : traced E) :
  calls (fst (Rust.add key vector t)) = (calls t ++ [call_add key vector])%list.
Proof.
  unfold Rust.add. cbn [Native.add Traced]. unfold logged.
  destruct (Native.add key vector (inner t)) as [e1 [result| |]];
    reflexivity.
Qed.

End SingleInsertionTraced.

Section BatchCapacity.
Context {E : Type} `{Native.Engine E}.
Import Napi.

(** What the batch form leaves as capacity when it had to grow and the
    engine reserved: what it asked for. *)
Lemma Add_batch_capacity (keys_js vectors_js rest : list Value)
    (e e' : E) (c : Completion) :
  let m := Native.size e + len keys_js in
  len keys_js = len vectors_js ->
  JS.Add (Array keys_js :: Array vectors_js :: rest) e = Some (e', c) ->
  0 <= Native.size e -> m < 2 ^ 64 ->
  Native.capacity e <= m ->
  snd (Native.reserve (Native.ceil2 m) e) = true ->
  (forall n (x x' : E),
      Native.capacity x <= n -> Native.reserve n x = (x', true) ->
      Native.capacity x' = n) ->
  (forall k v (x : E),
      Native.capacity (fst (Native.add k v x)) = Native.capacity x) ->
  m <= Native.ceil2 m ->
  Native.capacity e' = Native.ceil2 m.
Proof.
  intros m Hlen Hadd Hsize Hm Hgrow Hreserved Creserve Cadd Cceil.
  unfold JS.Add in Hadd. rewrite len_two_more in Hadd.
  cbn [arg nth] in Hadd.
  rewrite <- Hlen, Z.eqb_refl in Hadd. cbn [negb] in Hadd.
  pose proof (len_nonneg keys_js) as Hkeys.
  rewrite wrap64_small in Hadd by (fold m; lia). fold m in Hadd.
  assert (Hge : (m >=? Native.capacity e) = true)
    by (apply Z.geb_le; exact Hgrow).
  rewrite Hge in Hadd.
  destruct (Native.reserve (Native.ceil2 m) e) as [e1 reserved] eqn:Hres.
  cbn [snd] in Hreserved. subst reserved. cbn [negb] in Hadd.
  destruct (JS.add_each (Native.dimensions e) keys_js vectors_js e1)
    as [[e2 errors]|] eqn:Heach; try discriminate Hadd.
  cbn [option_map] in Hadd. unfold JS.thrown_all in Hadd.
  injection Hadd as <- _.
  rewrite (add_each_capacity _ _ _ Cadd _ _ _ Heach).
  apply (Creserve _ e e1); [lia | exact Hres].
Qed.

End BatchCapacity.

(** *** Rounding up to a power of two *)

(** One smearing step doubles the window of bits each bit collects. *)
Lemma smear_step (v x w : Z) :
  0 < w ->
  (forall i, 0 <= i ->
     Z.testbit x i = true <->
     exists j, i <= j < i + w /\ Z.testbit v j = true) ->
  forall i, 0 <= i ->
    Z.testbit (Z.lor x (Z.shiftr x w)) i = true <->
    exists j, i <= j < i + 2 * w /\ Z.testbit v j = true.
Proof.
  intros Hw Hx i Hi.
  rewrite Z.lor_spec, Z.shiftr_spec by lia. rewrite orb_true_iff.
  rewrite (Hx i Hi). rewrite (Hx (i + w)) by lia. split.
  - intros [(j & Hj & Hbit) | (j & Hj & Hbit)];
      exists j; (split; [lia | exact Hbit]).
  - intros (j & Hj & Hbit).
    destruct (Z_lt_le_dec j (i + w)); [left | right];
      exists j; (split; [lia | exact Hbit]).
Qed.

(** After the six steps every bit up to the highest set one is set. *)
Lemma smear_fills (v : Z) :
  0 < v < 2 ^ 63 ->
  let x1 := Z.lor v (Z.shiftr v 1) in
  let x2 := Z.lor x1 (Z.shiftr x1 2) in
  let x4 := Z.lor x2 (Z.shiftr x2 4) in
  let x8 := Z.lor x4 (Z.shiftr x4 8) in
  let x16 := Z.lor x8 (Z.shiftr x8 16) in
  let x32 := Z.lor x16 (Z.shiftr x16 32) in
  x32 = Z.ones (Z.log2 v + 1).
Proof.
  intros Hv x1 x2 x4 x8 x16 x32.
  assert (W0 : forall i, 0 <= i ->
            Z.testbit v i = true <->
            exists j, i <= j < i + 1 /\ Z.testbit v j = true).
  { intros i Hi. split.
    - intros Hbit. exists i. split; [lia | exact Hbit].
    - intros (j & Hj & Hbit). replace i with j by lia. exact Hbit. }
  pose proof (smear_step v v 1 ltac:(lia) W0) as W1. fold x1 in W1.
  pose proof (smear_step v x1 2 ltac:(lia) W1) as W2. fold x2 in W2.
  pose proof (smear_step v x2 4 ltac:(lia) W2) as W4. fold x4 in W4.
  pose proof (smear_step v x4 8 ltac:(lia) W4) as W8. fold x8 in W8.
  pose proof (smear_step v x8 16 ltac:(lia) W8) as W16. fold x16 in W16.
  pose proof (smear_step v x16 32 ltac:(lia) W16) as W32. fold x32 in W32.
  pose proof (Z.log2_nonneg v) as Hlog.
  assert (Hhigh : Z.log2 v < 63) by (apply Z.log2_lt_pow2; lia).
  apply Z.bits_inj'. intros i Hi.
  rewrite Z.testbit_ones_nonneg by lia.
  destruct (Z.ltb_spec i (Z.log2 v + 1)) as [Hlow | Habove].
  - apply W32; [exact Hi|]. exists (Z.log2 v).
    split; [lia | apply Z.bit_log2; lia].
  - destruct (Z.testbit x32 i) eqn:Hbit; [|reflexivity].
    apply W32 in Hbit; [|exact Hi]. destruct Hbit as (j & Hj & Hbit).
    rewrite Z.bits_above_log2 in Hbit by lia. discriminate Hbit.
Qed.

(** [ceil2] rounds up to a power of two, from 1 up to [2 ^ 63]. *)
Lemma Reference_ceil2_rounds_up (m : Z) :
  1 <= m <= 2 ^ 63 ->
  power_of_two (Reference.ceil2 m) /\ m <= Reference.ceil2 m.
Proof.
  intros Hm. unfold Reference.ceil2. cbv zeta.
  rewrite (wrap64_small (m - 1)) by lia.
  destruct (Z.eq_dec (m - 1) 0) as [Hzero | Hpos].
  - rewrite Hzero. replace m with 1 by lia.
    split; [exists 0; split; [lia | vm_compute; reflexivity]
           | vm_compute; discriminate].
  - pose proof (smear_fills (m - 1) ltac:(lia)) as Hfill.
    cbv zeta in Hfill. rewrite Hfill. rewrite Z.ones_equiv.
    pose proof (Z.log2_nonneg (m - 1)) as Hlog.
    assert (Hhigh : Z.log2 (m - 1) < 63) by (apply Z.log2_lt_pow2; lia).
    pose proof (Z.log2_spec (m - 1) ltac:(lia)) as Hspec.
    assert (Hpow : 0 < 2 ^ (Z.log2 (m - 1) + 1) <= 2 ^ 63).
    { split; [apply Z.pow_pos_nonneg; lia
             | apply Z.pow_le_mono_r; lia]. }
    rewrite wrap64_small by lia.
    replace (Z.pred (2 ^ (Z.log2 (m - 1) + 1)) + 1)
      with (2 ^ (Z.log2 (m - 1) + 1)) by lia.
    split; [exists (Z.log2 (m - 1) + 1); split; [lia | reflexivity]|].
    unfold Z.succ in Hspec. lia.
Qed.

(** C1, the statement as given fails on the Rust layer: [Index::add] on an
    index with no capacity left goes to the engine's [add] without any
    reservation, and the capacity stays what it was. *)
Lemma rust_add_does_not_reserve :
  let t := untraced (Reference.fresh 0 100 []) in
  (Native.size t + 1 >=? Native.capacity t) = true
  /\ calls (fst (Rust.add 1 [0; 0] t)) = [call_add 1 [0; 0]]
  /\ Native.capacity (fst (Rust.add 1 [0; 0] t)) = 0.
Proof. vm_compute. repeat split; reflexivity. Qed.

(** An empty batch on an empty index without capacity: growth is needed
    ([0 + 0 >= 0]), [ceil2 0 = 0] is reserved, and the capacity stays 0, which
    is no power of two.  Hence the lower bound in the capacity statement
    below. *)
Lemma empty_batch_reserves_nothing :
  let t := untraced (Reference.fresh 0 100 []) in
  (wrap64 (Native.size t + 0) >=? Native.capacity t) = true
  /\ (exists t',
        JS.Add [Napi.Array []; Napi.Array []] t = Some (t', Napi.give Napi.Undefined)
        /\ calls t' = [call_reserve 0]
        /\ Native.capacity t' = 0)
  /\ ~ power_of_two 0.
Proof.
  split; [vm_compute; reflexivity|]. split.
  - eexists. split; [vm_compute; reflexivity|]. split; reflexivity.
  - intros (k & Hk & Hzero).
    pose proof (Z.pow_pos_nonneg 2 k ltac:(lia) Hk). lia.
Qed.

(** C1, amended.  In the JavaScript layer:
    - the single form of [Index::Add] reserves [ceil2 (size + 1)] when
      [size + 1 >= capacity], and does so before the engine's [add], which it
      then calls for an element that passes the checks;
    - the batch form of [N] elements reserves [ceil2 (size + N)] when
      [size + N >= capacity], once and before the loop: every later call is an
      [add], one for each of the leading elements that pass the checks, up to
      the first element that fails, and none at all when the engine refuses
      the reservation ("Out of memory!");
    - when the batch had to grow, [1 <= size + N <= 2 ^ 63] and the engine
      reserved, the capacity after the call is [ceil2 (size + N)], at least
      [N] and a power of two, [ceil2] being the 64-bit rounding
      [Reference.ceil2].
    In the Rust layer [Index::add] is the engine's [add] alone: reserving is
    left to the host through [Index::reserve]. *)
Theorem javascript_add_reserves_once_before_inserting
    {E : Type} `{Native.Engine E} :
  (forall (t : traced E) key_js vector_js rest,
      let n := wrap64 (Native.size t + 1) in
      exists t' c,
        JS.Add (Napi.BigInt key_js :: Napi.Float32Array vector_js :: rest) t =
        Some (t', c)
        /\ calls t' =
           (calls t
            ++ (if n >=? Native.capacity t
                then [call_reserve (Native.ceil2 n)] else [])
            ++ (if Batch.valid (Native.dimensions t) (key_js, vector_js)
                then [Batch.passed (key_js, vector_js)] else []))%list)
  /\ (forall (t : traced E) keys_js vectors_js rest pairs,
      len keys_js = len vectors_js ->
      Batch.typed keys_js vectors_js = Some pairs ->
      let n := wrap64 (Native.size t + len keys_js) in
      exists t' c,
        JS.Add (Napi.Array keys_js :: Napi.Array vectors_js :: rest) t =
        Some (t', c)
        /\ ((n >=? Native.capacity t) = false ->
            exists handed left,
              calls t' = (calls t ++ map Batch.passed handed)%list
              /\ batch_end (Native.dimensions t) pairs handed left
                   (Napi.thrown c))
        /\ ((n >=? Native.capacity t) = true ->
            exists adds',
              calls t' =
                (calls t ++ call_reserve (Native.ceil2 n) :: adds')%list
              /\ forallb is_add adds' = true
              /\ (snd (Native.reserve (Native.ceil2 n) (inner t)) = true ->
                  exists handed left,
                    adds' = map Batch.passed handed
                    /\ batch_end (Native.dimensions t) pairs handed left
                         (Napi.thrown c))
              /\ (snd (Native.reserve (Native.ceil2 n) (inner t)) = false ->
                  adds' = [] /\ c = Napi.throw "Out of memory!")))
  /\ (forall (e e' : E) keys_js vectors_js rest c,
      let m := Native.size e + len keys_js in
      len keys_js = len vectors_js ->
      JS.Add (Napi.Array keys_js :: Napi.Array vectors_js :: rest) e =
        Some (e', c) ->
      0 <= Native.size e -> 1 <= m <= 2 ^ 63 ->
      Native.capacity e <= m ->
      snd (Native.reserve (Native.ceil2 m) e) = true ->
      (forall n (x x' : E),
          Native.capacity x <= n -> Native.reserve n x = (x', true) ->
          Native.capacity x' = n) ->
      (forall k v (x : E),
          Native.capacity (fst (Native.add k v x)) = Native.capacity x) ->
      Native.ceil2 m = Reference.ceil2 m ->
      Native.capacity e' = Native.ceil2 m
      /\ len keys_js <= Native.capacity e'
      /\ power_of_two (Native.capacity e'))
  /\ (forall (t : traced E) key vector,
      calls (fst (Rust.add key vector t)) =
      (calls t ++ [call_add key vector])%list).
Proof.
  split; [|split; [|split]].
  - intros t key_js vector_js rest. apply Add_single_traced.
  - intros t keys_js vectors_js rest pairs Hlen Htyped n.
    destruct (Add_batch_traced keys_js vectors_js rest pairs t Hlen Htyped)
      as (t' & c & Hadd & Hstay & Hgrow & Hrefuse).
    exists t', c. split; [exact Hadd|]. split.
    + intros Hneed. apply Hstay. exact Hneed.
    + intros Hneed.
      destruct (snd (Native.reserve (Native.ceil2 n) (inner t))) eqn:Hres.
      * destruct (Hgrow Hneed Hres) as (handed & left & Hcalls & Hend).
        exists (map Batch.passed handed).
        split; [exact Hcalls|]. split; [apply passed_are_adds|].
        split; [|discriminate].
        intros _. exists handed, left. split; [reflexivity | exact Hend].
      * exists []. destruct (Hrefuse Hneed Hres) as [-> ->].
        split; [reflexivity|]. split; [reflexivity|].
        split; [discriminate | intros _; split; reflexivity].
  - intros e e' keys_js vectors_js rest c m Hlen Hadd Hsize Hm Hgrow
      Hreserved Creserve Cadd Cceil.
    destruct (Reference_ceil2_rounds_up m Hm) as [Hpow Hup].
    rewrite <- Cceil in Hpow, Hup.
    assert (Hcap : Native.capacity e' = Native.ceil2 m).
    { apply (Add_batch_capacity keys_js vectors_js rest e e' c);
        try assumption. fold m. lia. }
    rewrite Hcap. split; [reflexivity|]. split; [|exact Hpow].
    subst m. lia.
  - intros t key vector. apply Rust_add_calls.
Qed.

(** The reference engine keeps the two promises the capacity statement
    asks of an engine. *)
Lemma Reference_reserve_capacity (n : Z) (x x' : Reference.index) :
  Native.capacity x <= n -> Native.reserve n x = (x', true) ->
  Native.capacity x' = n.
Proof.
  cbn [Native.capacity Native.reserve Reference.engine].
  unfold Reference.reserve. intros Hle Hres.
  destruct (Z.leb_spec n (Reference.cap x)).
  - injection Hres as <-. lia.
  - destruct (n <=? Reference.room x); [|discriminate Hres].
    injection Hres as <-. reflexivity.
Qed.

Lemma Reference_add_capacity (k : key_t) (v : list f32) (x : Reference.index) :
  Native.capacity (fst (Native.add k v x)) = Native.capacity x.
Proof.
  cbn [Native.capacity Native.add Reference.engine]. unfold Reference.add.
  destruct (Reference.cap x <=? len (Reference.entries x)); [reflexivity|].
  destruct (Reference.has k x); reflexivity.
Qed.

Lemma javascript_add_reserves_once_witness :
  let e := Reference.fresh 0 100 [] in
  let keys_js := [Napi.BigInt 1; Napi.BigInt 2; Napi.BigInt 3] in
  let vectors_js :=
    [Napi.Float32Array [0; 0]; Napi.Float32Array [1; 1];
     Napi.Float32Array [2; 2]] in
  exists e' c,
    JS.Add [Napi.Array keys_js; Napi.Array vectors_js] e = Some (e', c)
    /\ Native.capacity e' = 4
    /\ 3 <= Native.capacity e'
    /\ power_of_two (Native.capacity e').
Proof.
  intros e keys_js vectors_js.
  destruct (@javascript_add_reserves_once_before_inserting
              Reference.index Reference.engine) as (_ & _ & Hcapacity & _).
  destruct (JS.Add [Napi.Array keys_js; Napi.Array vectors_js] e)
    as [[e' c]|] eqn:Hadd; [|vm_compute in Hadd; discriminate Hadd].
  exists e', c. split; [reflexivity|].
  apply (Hcapacity e e' keys_js vectors_js [] c).
  - reflexivity.
  - exact Hadd.
  - vm_compute; discriminate.
  - vm_compute; split; discriminate.
  - vm_compute; discriminate.
  - vm_compute; reflexivity.
  - exact Reference_reserve_capacity.
  - exact Reference_add_capacity.
  - reflexivity.
Defined.

(** C3.  The single form of [Index::Add] does not look at what [reserve]
    answers.  With three slots, two of them taken, and an allocator that
    cannot provide four, [add(3n, [5, 5])] asks for four, is refused, and
    goes on: the element is inserted and nothing is thrown.  On the same index
    the batch form stops at the refusal with "Out of memory!" and inserts
    nothing. *)
Theorem single_add_ignores_refused_reservation :
  let t := untraced (Reference.fresh 3 3 [(1, [0; 0]); (2, [1; 1])]) in
  snd (Native.reserve (Native.ceil2 (wrap64 (Native.size t + 1))) (inner t))
    = false
  /\ JS.Add [Napi.BigInt 3; Napi.Float32Array [5; 5]] t =
     Some ({| inner :=
                Reference.fresh 3 3 [(1, [0; 0]); (2, [1; 1]); (3, [5; 5])];
              calls := [call_reserve 4; call_add 3 [5; 5]] |},
           {| Napi.thrown := []; Napi.returned := Napi.Undefined |})
  /\ JS.Add [Napi.Array [Napi.BigInt 3];
             Napi.Array [Napi.Float32Array [5; 5]]] t =
     Some ({| inner := inner t; calls := [call_reserve 4] |},
           Napi.throw "Out of memory!").
Proof. vm_compute. repeat split; reflexivity. Qed.

(** ** Vectors of the wrong length *)

(** C4, the statement as given fails: the single form of [Index::Add]
    reserves before the lambda checks the vector, so a call with a vector of
    three components on an index of two dimensions does reach the engine, and
    the capacity changes. *)
Lemma js_add_reserves_before_checking_dimensions :
  let t := untraced (Reference.fresh 0 100 []) in
  len [0; 0; 0] <> Native.dimensions t
  /\ exists t',
      JS.Add [Napi.BigInt 1; Napi.Float32Array [0; 0; 0]] t =
      Some (t', Napi.throw "Wrong number of dimensions")
      /\ calls t' = [call_reserve 1]
      /\ Native.capacity t' <> Native.capacity t.
Proof.
  split; [vm_compute; discriminate|].
  eexists. split; [vm_compute; reflexivity|].
  split; [reflexivity | vm_compute; discriminate].
Qed.

Lemma mismatch_is_invalid (index_dimensions key_js : Z) (vector_js : list f32) :
  0 <= key_js < 2 ^ 64 ->
  len vector_js <> index_dimensions ->
  Batch.valid index_dimensions (key_js, vector_js) = false
  /\ Batch.rejection (key_js, vector_js) =
     Napi.TypeError "Wrong number of dimensions".
Proof.
  intros Hkey Hmismatch. unfold Batch.valid, Batch.rejection. cbn [fst snd].
  rewrite Uint64Value_small by exact Hkey. cbn [snd andb].
  apply Z.eqb_neq in Hmismatch. rewrite Hmismatch. split; reflexivity.
Qed.

(** C4, amended.  In the JavaScript layer, for a vector whose length is not
    the dimensionality of the index:
    - [Index::Search] throws "Wrong number of dimensions" and calls nothing
      of the engine;
    - the single form of [Index::Add], given a key that fits 64 bits
      unsigned, throws "Wrong number of dimensions" and never calls the
      engine's [add]; the one call it may have made before the check is the
      reservation for [size + 1], so [size()] is unchanged on an engine whose
      [reserve] leaves the size alone;
    - an element of a batch is skipped with the same error, the engine
      untouched by it. *)
Theorem dimension_mismatch_is_rejected {E : Type} `{Native.Engine E}
    (t : traced E) (vector_js : list f32) :
  len vector_js <> Native.dimensions t ->
  (forall wanted_js rest,
      JS.Search (Napi.Float32Array vector_js :: Napi.BigInt wanted_js :: rest) t
      = Some (t, Napi.throw "Wrong number of dimensions"))
  /\ (forall key_js rest,
      0 <= key_js < 2 ^ 64 ->
      let n := wrap64 (Native.size t + 1) in
      exists t',
        JS.Add (Napi.BigInt key_js :: Napi.Float32Array vector_js :: rest) t =
        Some (t', Napi.throw "Wrong number of dimensions")
        /\ calls t' =
           (calls t ++ if n >=? Native.capacity t
                       then [call_reserve (Native.ceil2 n)] else [])%list
        /\ inner t' =
           (if n >=? Native.capacity t
            then fst (Native.reserve (Native.ceil2 n) (inner t))
            else inner t)
        /\ ((forall m (x : E),
                Native.size (fst (Native.reserve m x)) = Native.size x) ->
            Native.size t' = Native.size t))
  /\ (forall key_js,
      0 <= key_js < 2 ^ 64 ->
      JS.add_one (Native.dimensions t) key_js vector_js t =
      (t, [Napi.TypeError "Wrong number of dimensions"])).
Proof.
  intros Hmismatch. split; [|split].
  - intros wanted_js rest. unfold JS.Search. cbn [Napi.IsTypedArray negb].
    apply Z.eqb_neq in Hmismatch. rewrite Hmismatch. reflexivity.
  - intros key_js rest Hkey n. subst n.
    destruct (mismatch_is_invalid _ key_js vector_js Hkey Hmismatch)
      as [Hinvalid Hrejection].
    rewrite Add_single, add_one_rejected by exact Hinvalid.
    rewrite Hrejection. unfold JS.thrown_all. cbn [fst snd].
    eexists. split; [reflexivity|].
    cbn [Native.size Native.capacity Native.ceil2 Native.reserve Traced].
    destruct (wrap64 (Native.size (inner t) + 1) >=? Native.capacity (inner t)).
    + unfold logged. cbn [fst calls inner]. repeat split. intros Hsize.
      apply Hsize.
    + repeat split. symmetry; apply app_nil_r.
  - intros key_js Hkey.
    destruct (mismatch_is_invalid _ key_js vector_js Hkey Hmismatch)
      as [Hinvalid Hrejection].
    rewrite add_one_rejected by exact Hinvalid. rewrite Hrejection.
    reflexivity.
Qed.

Lemma dimension_mismatch_is_rejected_witness :
  let t := untraced (Reference.fresh 0 100 []) in
  JS.Search [Napi.Float32Array [0; 0; 0]; Napi.BigInt 5] t =
    Some (t, Napi.throw "Wrong number of dimensions")
  /\ (exists t',
      JS.Add [Napi.BigInt 1; Napi.Float32Array [0; 0; 0]] t =
      Some (t', Napi.throw "Wrong number of dimensions")
      /\ calls t' = [call_reserve 1])
  /\ JS.add_one 2 1 [0; 0; 0] t =
     (t, [Napi.TypeError "Wrong number of dimensions"]).
Proof.
  intros t.
  assert (Hmismatch : len [0; 0; 0] <> Native.dimensions t)
    by (vm_compute; discriminate).
  destruct (dimension_mismatch_is_rejected t [0; 0; 0] Hmismatch)
    as (Hsearch & Hadd & Helement).
  split; [exact (Hsearch 5 [])|]. split.
  - assert (Hkey : 0 <= 1 < 2 ^ 64) by lia.
    destruct (Hadd 1 [] Hkey) as (t' & Hthrown & Hcalls & _).
    exists t'. split; [exact Hthrown | exact Hcalls].
  - apply (Helement 1). lia.
Defined.

(** ** Removal *)

(** C7.  On an engine whose [remove] and [contains] behave as sections 4.4
    and 8 of the specification say, both layers hand the engine's answer on
    as it is: removing an absent key returns [false] without an error and
    leaves the size; removing a present key returns [true], the size goes
    down by one, and [contains] of that key is [false] afterwards. *)
Theorem remove_reports_presence {E : Type} `{Native.Engine E}
    (key : Z) (rest : list Napi.Value) (e : E) :
  0 <= key < 2 ^ 64 ->
  remove_contract key e ->
  (Native.contains key e = Native.Returns false ->
   exists e',
     JS.Remove (Napi.BigInt key :: rest) e =
       (e', Napi.give (Napi.Boolean false))
     /\ Rust.remove key e = (e', Rust.Value false)
     /\ JS.GetSize e' = JS.GetSize e
     /\ Native.size e' = Native.size e)
  /\ (Native.contains key e = Native.Returns true ->
      exists e',
        JS.Remove (Napi.BigInt key :: rest) e =
          (e', Napi.give (Napi.Boolean true))
        /\ Rust.remove key e = (e', Rust.Value true)
        /\ Native.size e' = Native.size e - 1
        /\ JS.Contains (Napi.BigInt key :: rest) e' =
           (e', Napi.give (Napi.Boolean false))
        /\ Rust.contains key e' = Rust.Value false).
Proof.
  intros Hkey Hcontract. unfold remove_contract in Hcontract.
  split; intros Hpresent; rewrite Hpresent in Hcontract.
  - destruct Hcontract as (e' & Hremove & Hsize). exists e'.
    unfold JS.Remove, Rust.remove, JS.GetSize.
    rewrite Uint64Value_small by exact Hkey. cbn [negb].
    rewrite Hremove, Hsize. repeat split; reflexivity.
  - destruct Hcontract as (e' & Hremove & Hsize & Hgone). exists e'.
    unfold JS.Remove, Rust.remove, JS.Contains, Rust.contains.
    rewrite Uint64Value_small by exact Hkey. cbn [negb].
    rewrite Hremove, Hgone. repeat split; try reflexivity. exact Hsize.
Qed.

(** The reference engine honours the contract on every index whose keys
    are distinct, which is what its own [add] maintains. *)
Lemma filter_out_unique_key (key : Z) (l : list (Z * list f32)) :
  NoDup (map fst l) ->
  existsb (fun p => fst p =? key) l = true ->
  len (filter (fun p => negb (fst p =? key)) l) = len l - 1
  /\ existsb (fun p => fst p =? key)
       (filter (fun p => negb (fst p =? key)) l) = false.
Proof.
  induction l as [|p l IH]; cbn [map existsb filter]; [discriminate|].
  intros Hunique Hpresent. inversion Hunique as [|k ks Hfresh Hrest]; subst.
  destruct (fst p =? key) eqn:Hkey; cbn [negb orb] in *.
  - apply Z.eqb_eq in Hkey.
    assert (Hnone : forall q, In q l -> (fst q =? key) = false).
    { intros q Hq. apply Z.eqb_neq. intros Hsame. apply Hfresh.
      rewrite Hkey, <- Hsame. apply in_map. exact Hq. }
    assert (Hkeep : filter (fun q => negb (fst q =? key)) l = l).
    { apply forallb_filter_id. apply forallb_forall. intros q Hq.
      rewrite (Hnone q Hq). reflexivity. }
    rewrite Hkeep. split.
    + unfold len. cbn [List.length]. lia.
    + destruct (existsb (fun q => fst q =? key) l) eqn:Hagain; [|reflexivity].
      apply existsb_exists in Hagain. destruct Hagain as (q & Hq & Hsame).
      rewrite (Hnone q Hq) in Hsame. discriminate Hsame.
  - destruct (IH Hrest Hpresent) as [Hlen Hgone].
    cbn [existsb]. rewrite Hkey. cbn [orb]. split; [|exact Hgone].
    unfold len in *. cbn [List.length].
    assert (Hsome : (0 < List.length l)%nat).
    { destruct l; [discriminate Hpresent | cbn; lia]. }
    lia.
Qed.

Lemma Reference_remove_contract (key : key_t) (e : Reference.index) :
  NoDup (map fst (Reference.entries e)) -> remove_contract key e.
Proof.
  intros Hunique. unfold remove_contract.
  cbn [Native.contains Native.remove Native.size Reference.engine].
  unfold Reference.remove.
  destruct (Reference.has key e) eqn:Hhas.
  - destruct (filter_out_unique_key key (Reference.entries e) Hunique Hhas)
      as [Hlen Hgone].
    eexists. split; [reflexivity|]. split.
    + cbn [Reference.with_entries Reference.entries]. exact Hlen.
    + unfold Reference.has. cbn [Reference.with_entries Reference.entries].
      rewrite Hgone. reflexivity.
  - exists e. split; reflexivity.
Qed.

Lemma remove_reports_presence_witness :
  let e := Reference.fresh 4 4 [(7, [0; 0]); (9, [1; 1])] in
  (exists e',
      JS.Remove [Napi.BigInt 7] e = (e', Napi.give (Napi.Boolean true))
      /\ Rust.remove 7 e = (e', Rust.Value true)
      /\ Native.size e' = Native.size e - 1
      /\ JS.Contains [Napi.BigInt 7] e' = (e', Napi.give (Napi.Boolean false))
      /\ Rust.contains 7 e' = Rust.Value false)
  /\ (exists e',
      JS.Remove [Napi.BigInt 8] e = (e', Napi.give (Napi.Boolean false))
      /\ Rust.remove 8 e = (e', Rust.Value false)
      /\ JS.GetSize e' = JS.GetSize e
      /\ Native.size e' = Native.size e).
Proof.
  intros e. split.
  - assert (Hkey : 0 <= 7 < 2 ^ 64) by lia.
    assert (Hcontract : remove_contract 7 e).
    { apply Reference_remove_contract. cbn.
      repeat constructor; cbn; intuition discriminate. }
    destruct (remove_reports_presence 7 [] e Hkey Hcontract) as [_ Hpresent].
    apply Hpresent. reflexivity.
  - assert (Hkey : 0 <= 8 < 2 ^ 64) by lia.
    assert (Hcontract : remove_contract 8 e).
    { apply Reference_remove_contract. cbn.
      repeat constructor; cbn; intuition discriminate. }
    destruct (remove_reports_presence 8 [] e Hkey Hcontract) as [Habsent _].
    apply Habsent. reflexivity.
Defined.

(** ** Persistence *)

Section Paths.
Context {E : Type} `{Native.Engine E}.
Import Napi.

Lemma with_path_refused
    (native : string -> E -> E * Native.raised Native.serialization_result_t)
    (generic : string) (ctx : list Value) (e : E) :
  IsString (arg 0 ctx) = false ->
  JS.with_path native generic ctx e =
  (e, throw "Function expects a string path argument").
Proof.
  unfold JS.with_path, arg. destruct ctx as [|v rest]; [reflexivity|].
  destruct v; cbn; intros Hstring; try reflexivity. discriminate Hstring.
Qed.

End Paths.

(** C8, the statement as given fails: the empty string is a string, passes
    the argument check of [Index::Save], and is handed to the engine. *)
Lemma js_save_accepts_the_empty_path :
  let t := untraced (Reference.fresh 4 4 [(7, [0; 0])]) in
  calls (fst (JS.Save [Napi.Str ""] t)) = [call_save ""]
  /\ snd (JS.Save [Napi.Str ""] t) <>
     Napi.throw "Function expects a string path argument".
Proof. vm_compute. split; [reflexivity | discriminate]. Qed.

(** C8, amended.  [Index::Save], [Index::Load] and [Index::View] called
    with no argument, or with a first argument that is not a string, throw
    "Function expects a string path argument" and call nothing of the engine.
    Called with a string, the empty one included, they hand it to the
    engine's [save], [load] or [view]. *)
Theorem path_argument_must_be_a_string {E : Type} `{Native.Engine E}
    (t : traced E) :
  (forall ctx,
      Napi.IsString (Napi.arg 0 ctx) = false ->
      JS.Save ctx t = (t, Napi.throw "Function expects a string path argument")
      /\ JS.Load ctx t =
         (t, Napi.throw "Function expects a string path argument")
      /\ JS.View ctx t =
         (t, Napi.throw "Function expects a string path argument"))
  /\ (forall path rest,
      calls (fst (JS.Save (Napi.Str path :: rest) t)) =
        (calls t ++ [call_save path])%list
      /\ calls (fst (JS.Load (Napi.Str path :: rest) t)) =
         (calls t ++ [call_load path])%list
      /\ calls (fst (JS.View (Napi.Str path :: rest) t)) =
         (calls t ++ [call_view path])%list).
Proof.
  split.
  - intros ctx Hstring. unfold JS.Save, JS.Load, JS.View.
    rewrite !with_path_refused by exact Hstring. repeat split; reflexivity.
  - intros path rest. unfold JS.Save, JS.Load, JS.View, JS.with_path.
    cbn [Native.save Native.load Native.view Traced]. unfold logged.
    split; [|split].
    + destruct (Native.save path (inner t)) as [e1 [result| |]];
        cbn [fst snd]; try reflexivity.
      destruct (Native.serialization_error result); reflexivity.
    + destruct (Native.load path (inner t)) as [e1 [result| |]];
        cbn [fst snd]; try reflexivity.
      destruct (Native.serialization_error result); reflexivity.
    + destruct (Native.view path (inner t)) as [e1 [result| |]];
        cbn [fst snd]; try reflexivity.
      destruct (Native.serialization_error result); reflexivity.
Qed.

Lemma path_argument_must_be_a_string_witness :
  let t := untraced (Reference.fresh 4 4 [(7, [0; 0])]) in
  JS.Save [] t = (t, Napi.throw "Function expects a string path argument")
  /\ JS.Load [Napi.BigInt 3] t =
     (t, Napi.throw "Function expects a string path argument")
  /\ calls (fst (JS.View [Napi.Str "index.usearch"] t)) =
     [call_view "index.usearch"].
Proof.
  intros t.
  destruct (path_argument_must_be_a_string t) as [Hrefused Hpassed].
  destruct (Hrefused [] eq_refl) as (Hsave & _ & _).
  destruct (Hrefused [Napi.BigInt 3] eq_refl) as (_ & Hload & _).
  destruct (Hpassed "index.usearch"%string []) as (_ & _ & Hview).
  split; [exact Hsave|]. split; [exact Hload | exact Hview].
Defined.

(** ** Construction *)

Section Construction.
Context {E : Type} `{Native.Engine E}.
Import Napi.

Lemma option_uint_typed (params : Value) (name : string)
    (keep : Z) (lossless : bool) :
  Options.uint_typed params name = true ->
  exists r, JS.option_uint params name keep lossless = Some r.
Proof.
  unfold Options.uint_typed, JS.option_uint.
  destruct (Has params name); cbn [negb orb]; [|eauto].
  destruct (Get params name); cbn; intros Hbig; try discriminate Hbig.
  eauto.
Qed.

Lemma option_name_typed (params : Value) (name : string) :
  Options.name_typed params name = true ->
  exists r, JS.option_name params name = Some r.
Proof.
  unfold Options.name_typed, JS.option_name.
  destruct (Has params name); cbn [negb orb]; [|eauto].
  destruct (Get params name); cbn; intros Hstr; try discriminate Hstr.
  eauto.
Qed.

End Construction.

(** C6, the statement as given fails on the Rust layer: [new_index] maps a
    metric and a quantization outside the recognized ones to [unknown_k] and
    returns an index all the same, which then takes a vector. *)
Lemma rust_new_index_accepts_unrecognized_kinds :
  let options :=
    {| Rust.dimensions := 2;
       Rust.metric := Rust.MetricKind_other;
       Rust.quantization := Rust.ScalarKind_other;
       Rust.connectivity := 16;
       Rust.expansion_add := 128;
       Rust.expansion_search := 64 |} in
  let e : Reference.index := Rust.new_index options in
  Rust.rust_to_cpp_metric (Rust.metric options) = Native.metric_kind_t.unknown_k
  /\ Rust.rust_to_cpp_scalar (Rust.quantization options) =
     Native.scalar_kind_t.unknown_k
  /\ snd (Rust.add 7 [0; 0] (Rust.reserve 1 e)) = Rust.Value tt
  /\ Rust.contains 7 (fst (Rust.add 7 [0; 0] (Rust.reserve 1 e))) =
     Rust.Value true.
Proof. vm_compute. repeat split; reflexivity. Qed.

(** C6, amended.  In the JavaScript layer, a configuration bag whose
    quantization or metric name the engine's parser rejects makes the
    constructor throw one type error and leave [native_] empty; the error is
    the parser's own message for that name, or "Arguments must be unsigned
    integers" when a numeric option was refused first.  In the Rust layer
    [new_index] cannot fail: a kind outside the recognized ones becomes
    [unknown_k] and the engine is made with it. *)
Theorem constructor_and_unrecognized_names {E : Type} `{Native.Engine E} :
  (forall properties : list (string * Napi.Value),
      let params := Napi.Object properties in
      Options.typed params = true ->
      (exists q message,
          JS.option_name params "quantization" = Some (Some q)
          /\ Native.expected_error (Native.scalar_kind_from_name q) =
             Some message)
      \/ (exists m message,
          JS.option_name params "metric" = Some (Some m)
          /\ Native.expected_error (Native.metric_from_name m) = Some message) ->
      exists message,
        JS.Index (E := E) [params] = Some (None, [Napi.TypeError message])
        /\ (message = "Arguments must be unsigned integers"%string
            \/ (exists q,
                JS.option_name params "quantization" = Some (Some q)
                /\ Native.expected_error (Native.scalar_kind_from_name q) =
                   Some message)
            \/ (exists m,
                JS.option_name params "metric" = Some (Some m)
                /\ Native.expected_error (Native.metric_from_name m) =
                   Some message)))
  /\ Rust.rust_to_cpp_metric Rust.MetricKind_other =
     Native.metric_kind_t.unknown_k
  /\ Rust.rust_to_cpp_scalar Rust.ScalarKind_other =
     Native.scalar_kind_t.unknown_k
  /\ (forall options : Rust.IndexOptions,
      Rust.new_index (E := E) options =
      Native.make
        {| Native.metric_dimensions := Rust.dimensions options;
           Native.metric_kind := Rust.rust_to_cpp_metric (Rust.metric options);
           Native.metric_scalar :=
             Rust.rust_to_cpp_scalar (Rust.quantization options) |}
        {| Native.config_connectivity := Rust.connectivity options;
           Native.config_expansion_add := Rust.expansion_add options;
           Native.config_expansion_search := Rust.expansion_search options |}).
Proof.
  split; [|repeat split].
  intros properties params Htyped Hunknown.
  unfold Options.typed in Htyped.
  repeat match type of Htyped with
         | _ && _ = true => apply andb_prop in Htyped; destruct Htyped as [Htyped ?]
         end.
  unfold JS.Index. cbn [len List.length Z.of_nat Napi.arg nth].
  change (Napi.IsObject (Napi.Object properties)) with true.
  cbn [Z.eqb Z.geb Z.compare Pos.compare Pos.compare_cont orb negb Pos.of_succ_nat Pos.succ].
  fold params.
  destruct (option_uint_typed params "dimensions" 0 true Htyped)
    as [[dimensions l0] ->].
  match goal with
  | Hc : Options.uint_typed params "capacity" = true |- _ =>
      destruct (option_uint_typed params "capacity" 0 l0 Hc)
        as [[members l1] ->]
  end.
  match goal with
  | Hc : Options.uint_typed params "connectivity" = true |- _ =>
      destruct (option_uint_typed params "connectivity"
                  Native.default_connectivity l1 Hc) as [[connectivity l2] ->]
  end.
  match goal with
  | Hc : Options.uint_typed params "expansion_add" = true |- _ =>
      destruct (option_uint_typed params "expansion_add"
                  Native.default_expansion_add l2 Hc) as [[expansion_add l3] ->]
  end.
  match goal with
  | Hc : Options.uint_typed params "expansion_search" = true |- _ =>
      destruct (option_uint_typed params "expansion_search"
                  Native.default_expansion_search l3 Hc)
        as [[expansion_search l4] ->]
  end.
  destruct l4; cbn [negb];
    [|eexists; split; [reflexivity | left; reflexivity]].
  match goal with
  | Hc : Options.name_typed params "quantization" = true |- _ =>
      destruct (option_name_typed params "quantization" Hc) as [qs Hq]
  end.
  match goal with
  | Hc : Options.name_typed params "metric" = true |- _ =>
      destruct (option_name_typed params "metric" Hc) as [ms Hm]
  end.
  rewrite Hq.
  destruct qs as [q|].
  - destruct (Native.expected_error (Native.scalar_kind_from_name q))
      as [message|] eqn:Hparsed.
    + eexists; split; [reflexivity|]. right; left. exists q. split; auto.
    + rewrite Hm. destruct ms as [m|].
      * destruct (Native.expected_error (Native.metric_from_name m))
          as [message|] eqn:Hmetric.
        -- eexists; split; [reflexivity|]. right; right. exists m.
           split; auto.
        -- exfalso. destruct Hunknown as [(q' & msg & Hq' & Herr)
                                         |(m' & msg & Hm' & Herr)].
           ++ rewrite Hq in Hq'. injection Hq' as <-. congruence.
           ++ rewrite Hm in Hm'. injection Hm' as <-. congruence.
      * exfalso. destruct Hunknown as [(q' & msg & Hq' & Herr)
                                      |(m' & msg & Hm' & Herr)].
        -- rewrite Hq in Hq'. injection Hq' as <-. congruence.
        -- rewrite Hm in Hm'. discriminate Hm'.
  - cbn [Native.expected_error]. rewrite Hm. destruct ms as [m|].
    + destruct (Native.expected_error (Native.metric_from_name m))
        as [message|] eqn:Hmetric.
      * eexists; split; [reflexivity|]. right; right. exists m. split; auto.
      * exfalso. destruct Hunknown as [(q' & msg & Hq' & Herr)
                                      |(m' & msg & Hm' & Herr)].
        -- rewrite Hq in Hq'. discriminate Hq'.
        -- rewrite Hm in Hm'. injection Hm' as <-. congruence.
    + exfalso. destruct Hunknown as [(q' & msg & Hq' & Herr)
                                    |(m' & msg & Hm' & Herr)].
      * rewrite Hq in Hq'. discriminate Hq'.
      * rewrite Hm in Hm'. discriminate Hm'.
Qed.

Lemma constructor_and_unrecognized_names_witness :
  let params :=
    Napi.Object [("dimensions"%string, Napi.BigInt 4);
                 ("metric"%string, Napi.Str "manhattan")] in
  JS.Index (E := Reference.index) [params] =
  Some (None,
        [Napi.TypeError
           "Unknown metric, choose: ip, l2sq, cos, pearson, haversine, hamming, tanimoto, sorensen"]).
Proof.
  intros params.
  destruct (@constructor_and_unrecognized_names Reference.index Reference.engine)
    as [Hjs _].
  destruct (Hjs [("dimensions"%string, Napi.BigInt 4);
                 ("metric"%string, Napi.Str "manhattan")])
    as (message & Hindex & _).
  - reflexivity.
  - right. exists "manhattan"%string. eexists. split; reflexivity.
  - fold params in Hindex. rewrite Hindex.
    assert (Hsame :
      JS.Index (E := Reference.index) [params] =
      Some (None,
            [Napi.TypeError
               "Unknown metric, choose: ip, l2sq, cos, pearson, haversine, hamming, tanimoto, sorensen"]))
      by (vm_compute; reflexivity).
    rewrite Hindex in Hsame. exact Hsame.
Defined.

(** * Further properties of the two layers *)

(** ** Keys *)

Lemma Uint64Value_range (z : Z) : 0 <= fst (Napi.Uint64Value z) < 2 ^ 64.
Proof. cbn [Napi.Uint64Value fst]. unfold wrap64. apply Z.mod_pos_bound. lia. Qed.

Lemma Uint64Value_lossless (z : Z) :
  snd (Napi.Uint64Value z) = true <-> 0 <= z < 2 ^ 64.
Proof.
  cbn [Napi.Uint64Value snd]. rewrite andb_true_iff, Z.leb_le, Z.ltb_lt.
  reflexivity.
Qed.

Lemma Uint64Value_lossy (z : Z) :
  ~ 0 <= z < 2 ^ 64 -> snd (Napi.Uint64Value z) = false.
Proof.
  intros Hout. destruct (snd (Napi.Uint64Value z)) eqn:Hl; [|reflexivity].
  apply Uint64Value_lossless in Hl. contradiction.
Qed.

Lemma valid_is_marshalled (d : Z) (p : Z * list f32) :
  Batch.valid d p = true -> Marshalled.by_add d (Batch.passed p) = true.
Proof.
  unfold Batch.valid, Batch.passed, Marshalled.by_add.
  intros Hvalid. apply andb_prop in Hvalid. destruct Hvalid as [_ Hdim].
  pose proof (Uint64Value_range (fst p)) as [Hlow Hhigh].
  apply Z.leb_le in Hlow. apply Z.ltb_lt in Hhigh.
  rewrite Hlow, Hhigh, Hdim. reflexivity.
Qed.

(** ** What reaches the engine's [add] *)

Section Marshalling.
Context {E : Type} `{Native.Engine E}.
Import Napi.

Lemma add_one_marshalled (d key_js : Z) (vector_js : list f32) (t : traced E) :
  exists new,
    calls (fst (JS.add_one d key_js vector_js t)) = (calls t ++ new)%list
    /\ forallb (Marshalled.by_add d) new = true
    /\ forallb is_add new = true.
Proof.
  rewrite add_one_calls.
  destruct (Batch.valid d (key_js, vector_js)) eqn:Hvalid.
  - exists [Batch.passed (key_js, vector_js)]. split; [reflexivity|].
    cbn [forallb]. rewrite (valid_is_marshalled _ _ Hvalid). split; reflexivity.
  - exists []. repeat split.
Qed.

Lemma add_each_marshalled (d : Z) (keys_js vectors_js : list Value) :
  forall (t t' : traced E) errors,
    JS.add_each d keys_js vectors_js t = Some (t', errors) ->
    exists new,
      calls t' = (calls t ++ new)%list
      /\ forallb (Marshalled.by_add d) new = true
      /\ forallb is_add new = true.
Proof.
  revert vectors_js.
  induction keys_js as [|key keys IH]; intros vectors_js t t' errors Heach.
  - cbn in Heach. injection Heach as <- _.
    exists []; rewrite app_nil_r; repeat split.
  - destruct vectors_js as [|vector vectors].
    + destruct key; cbn in Heach; injection Heach as <- _;
        exists []; rewrite app_nil_r; repeat split.
    + destruct key; try discriminate Heach;
        destruct vector; try discriminate Heach.
      cbn [JS.add_each] in Heach.
      destruct (add_one_marshalled d z data t) as (new1 & Hcalls1 & Hok1 & Hadd1).
      destruct (JS.add_one d z data t) as [t1 errors1]. cbn [fst] in Hcalls1.
      destruct errors1 as [|error more].
      * destruct (IH vectors t1 t' errors Heach)
          as (new2 & Hcalls2 & Hok2 & Hadd2).
        exists (new1 ++ new2)%list. rewrite Hcalls2, Hcalls1, <- app_assoc.
        rewrite !forallb_app, Hok1, Hok2, Hadd1, Hadd2. repeat split.
      * injection Heach as <- _. exists new1. repeat split; assumption.
Qed.

End Marshalling.

(** What [Index::Add] asks of the engine, wherever it is defined. *)
Lemma Add_calls_marshalled {E : Type} `{Native.Engine E}
    (ctx : list Napi.Value) (t t' : traced E) (c : Napi.Completion) :
  JS.Add ctx t = Some (t', c) ->
  exists reservation adds,
    calls t' = (calls t ++ reservation ++ adds)%list
    /\ (reservation = [] \/ exists m, reservation = [call_reserve m])
    /\ forallb is_add adds = true
    /\ forallb (Marshalled.by_add (Native.dimensions t)) adds = true.
Proof.
  intros Hadd. unfold JS.Add in Hadd.
  assert (Hnone : exists reservation adds,
             calls t = (calls t ++ reservation ++ adds)%list
             /\ (reservation = [] \/ exists m, reservation = [call_reserve m])
             /\ forallb is_add adds = true
             /\ forallb (Marshalled.by_add (Native.dimensions t)) adds = true).
  { exists [], []. rewrite app_nil_r. repeat split. left; reflexivity. }
  destruct (len ctx <? 2); [injection Hadd as <- _; exact Hnone|].
  cbn [Native.size Native.capacity Native.dimensions Native.ceil2
       Native.reserve Traced] in *.
  set (d := Native.dimensions (inner t)) in *.
  destruct (Napi.arg 0 ctx) as [| | | |key_js| | | |keys_js|];
    destruct (Napi.arg 1 ctx) as [| | | | |vector_js| | |vectors_js|];
    cbn [Napi.IsTypedArray] in Hadd;
    try discriminate Hadd;
    try (injection Hadd as <- _; exact Hnone).
  - (* one key, one vector *)
    injection Hadd as Hrun _.
    set (n := wrap64 (Native.size (inner t) + 1)) in *.
    destruct (n >=? Native.capacity (inner t)).
    + unfold logged in Hrun. cbn [fst] in Hrun.
      match type of Hrun with
      | fst (JS.add_one _ _ _ ?t1) = _ =>
          destruct (add_one_marshalled d key_js vector_js t1)
            as (adds & Hcalls & Hok & Hadds)
      end.
      rewrite Hrun in Hcalls.
      exists [call_reserve (Native.ceil2 n)], adds.
      rewrite Hcalls. cbn [calls]. rewrite <- app_assoc.
      repeat split; auto. right; eexists; reflexivity.
    + destruct (add_one_marshalled d key_js vector_js t)
        as (adds & Hcalls & Hok & Hadds).
      rewrite Hrun in Hcalls.
      exists [], adds. repeat split; auto.
  - (* keys and vectors *)
    destruct (len keys_js =? len vectors_js); cbn [negb] in Hadd;
      [|injection Hadd as <- _; exact Hnone].
    set (n := wrap64 (Native.size (inner t) + len keys_js)) in *.
    destruct (n >=? Native.capacity (inner t)).
    + unfold logged in Hadd.
      destruct (Native.reserve (Native.ceil2 n) (inner t)) as [e1 reserved].
      cbn [fst snd] in Hadd. destruct reserved; cbn [negb] in Hadd.
      * match type of Hadd with
        | option_map _ (JS.add_each _ _ _ ?t1) = _ =>
            destruct (JS.add_each d keys_js vectors_js t1)
              as [[t2 errors]|] eqn:Heach; try discriminate Hadd;
            destruct (add_each_marshalled d keys_js vectors_js t1 t2 errors Heach)
              as (adds & Hcalls & Hok & Hadds)
        end.
        cbn [option_map] in Hadd. unfold JS.thrown_all in Hadd.
        injection Hadd as <- _. cbn [fst].
        exists [call_reserve (Native.ceil2 n)], adds.
        rewrite Hcalls. cbn [calls]. rewrite <- app_assoc.
        repeat split; auto. right; eexists; reflexivity.
      * injection Hadd as <- _. cbn [calls].
        exists [call_reserve (Native.ceil2 n)], [].
        repeat split. right; eexists; reflexivity.
    + destruct (JS.add_each d keys_js vectors_js t)
        as [[t2 errors]|] eqn:Heach; try discriminate Hadd.
      destruct (add_each_marshalled d keys_js vectors_js t t2 errors Heach)
        as (adds & Hcalls & Hok & Hadds).
      cbn [option_map] in Hadd. unfold JS.thrown_all in Hadd.
      injection Hadd as <- _. cbn [fst].
      exists [], adds. repeat split; auto.
Qed.

(** X1.  In every call of [Index::Add] that casts as written (any number
    and kind of arguments, the vector of the single form being a Float32Array
    and a batch of as many keys as vectors being BigInts and Float32Arrays),
    what is asked of the engine is at most one reservation followed by [add]s
    only, and every [add] carries a key within 64 bits unsigned and a vector
    of exactly the dimensions of the index. *)
Theorem add_hands_over_checked_elements_only {E : Type} `{Native.Engine E}
    (ctx : list Napi.Value) (t : traced E) :
  Marshalled.cast_as_written ctx = true ->
  exists t' c reservation adds,
    JS.Add ctx t = Some (t', c)
    /\ calls t' = (calls t ++ reservation ++ adds)%list
    /\ (reservation = [] \/ exists m, reservation = [call_reserve m])
    /\ forallb is_add adds = true
    /\ forallb (Marshalled.by_add (Native.dimensions t)) adds = true.
Proof.
  intros Hcast. destruct (Add_defined ctx t Hcast) as [[t' c] Hadd].
  destruct (Add_calls_marshalled ctx t t' c Hadd)
    as (reservation & adds & Hcalls & Hone & Hadds & Hchecked).
  exists t', c, reservation, adds. repeat split; assumption.
Qed.

Lemma add_hands_over_checked_elements_only_witness :
  let t := untraced (Reference.fresh 0 100 []) in
  let ctx :=
    [Napi.Array [Napi.BigInt 1; Napi.BigInt 2; Napi.BigInt (-1)];
     Napi.Array [Napi.Float32Array [0; 0]; Napi.Float32Array [1; 1; 1];
                 Napi.Float32Array [0; 0]]] in
  exists t' c reservation adds,
    JS.Add ctx t = Some (t', c)
    /\ calls t' = (calls t ++ reservation ++ adds)%list
    /\ forallb (Marshalled.by_add 2) adds = true.
Proof.
  intros t ctx.
  destruct (add_hands_over_checked_elements_only ctx t eq_refl)
    as (t' & c & reservation & adds & Hadd & Hcalls & _ & _ & Hchecked).
  exists t', c, reservation, adds. repeat split; assumption.
Defined.

(** ** Calls [Index::Add] refuses *)

Section Refusals.
Context {E : Type} `{Native.Engine E}.
Import Napi.

Lemma len_below_two (ctx : list Value) :
  len ctx < 2 -> (len ctx <? 2) = true.
Proof. intros Hshort. apply Z.ltb_lt. exact Hshort. Qed.

Lemma len_two_or_more (ctx : list Value) :
  2 <= len ctx -> (len ctx <? 2) = false.
Proof. intros Hlong. apply Z.ltb_ge. exact Hlong. Qed.

Lemma add_one_lossy_key (d key_js : Z) (vector_js : list f32) (e : E) :
  ~ 0 <= key_js < 2 ^ 64 ->
  JS.add_one d key_js vector_js e =
  (e, [TypeError "Keys must be unsigned integers"]).
Proof.
  intros Hout. unfold JS.add_one.
  pose proof (Uint64Value_lossy key_js Hout) as Hlossy.
  destruct (Uint64Value key_js) as [key lossless]. cbn [snd] in Hlossy.
  subst lossless. reflexivity.
Qed.

End Refusals.

(** X2.  [Index::Add] refuses a call with fewer than two arguments, and a
    call whose first two arguments are neither two arrays nor a BigInt with a
    typed array, each with its own type error and before anything is asked of
    the engine: the index comes back as it was. *)
Theorem add_refuses_malformed_calls {E : Type} `{Native.Engine E}
    (ctx : list Napi.Value) (e : E) :
  (len ctx < 2 ->
   JS.Add ctx e = Some (e, Napi.throw "Expects at least two arguments"))
  /\ (2 <= len ctx ->
      Napi.IsArray (Napi.arg 0 ctx) && Napi.IsArray (Napi.arg 1 ctx) = false ->
      Napi.IsBigInt (Napi.arg 0 ctx) && Napi.IsTypedArray (Napi.arg 1 ctx)
        = false ->
      JS.Add ctx e =
      Some (e, Napi.throw
                 "Invalid argument type, expects integral key(s) and float vector(s)")).
Proof.
  split.
  - intros Hshort. unfold JS.Add. rewrite len_below_two by exact Hshort.
    reflexivity.
  - intros Hlong Harrays Hsingle. unfold JS.Add.
    rewrite len_two_or_more by exact Hlong.
    destruct (Napi.arg 0 ctx); destruct (Napi.arg 1 ctx);
      cbn in Harrays, Hsingle; try discriminate; reflexivity.
Qed.

Lemma add_refuses_malformed_calls_witness :
  let e := Reference.fresh 0 100 [] in
  JS.Add [Napi.BigInt 1] e =
    Some (e, Napi.throw "Expects at least two arguments")
  /\ JS.Add [Napi.BigInt 1; Napi.Array [Napi.Float32Array [0; 0]]] e =
     Some (e, Napi.throw
                "Invalid argument type, expects integral key(s) and float vector(s)").
Proof.
  intros e. split.
  - destruct (add_refuses_malformed_calls [Napi.BigInt 1] e) as [Hshort _].
    apply Hshort. vm_compute. reflexivity.
  - destruct (add_refuses_malformed_calls
                [Napi.BigInt 1; Napi.Array [Napi.Float32Array [0; 0]]] e)
      as [_ Htypes].
    apply Htypes; [vm_compute; discriminate | reflexivity | reflexivity].
Defined.

(** X3.  In the single form of [Index::Add] the key is checked first: a
    BigInt that is negative or does not fit 64 bits is refused with "Keys must
    be unsigned integers" whatever the vector, also one of the wrong length.
    The engine's [add] is not called; the index is the one the reservation
    for [size + 1], made before the check, leaves. *)
Theorem add_refuses_keys_outside_64_bits {E : Type} `{Native.Engine E}
    (key_js : Z) (vector_js : list f32) (rest : list Napi.Value) (e : E) :
  ~ 0 <= key_js < 2 ^ 64 ->
  JS.Add (Napi.BigInt key_js :: Napi.Float32Array vector_js :: rest) e =
  Some (Marshalled.reserved_for_one e,
        Napi.throw "Keys must be unsigned integers").
Proof.
  intros Hout. rewrite Add_single, add_one_lossy_key by exact Hout.
  reflexivity.
Qed.

Lemma add_refuses_keys_outside_64_bits_witness :
  let t := untraced (Reference.fresh 4 4 [(7, [0; 0])]) in
  JS.Add [Napi.BigInt (-1); Napi.Float32Array [0; 0; 0]] t =
  Some (t, Napi.throw "Keys must be unsigned integers").
Proof.
  intros t.
  assert (Hout : ~ 0 <= -1 < 2 ^ 64) by lia.
  exact (add_refuses_keys_outside_64_bits (-1) [0; 0; 0] [] t Hout).
Defined.

(** X4.  A batch of no keys and no vectors inserts nothing, yet it goes
    through the reservation like any other batch: on an index whose size has
    reached its capacity it asks the engine for [ceil2 size] and fails with
    "Out of memory!" when that is refused; otherwise nothing is thrown. *)
Theorem add_of_an_empty_batch {E : Type} `{Native.Engine E}
    (rest : list Napi.Value) (t : traced E) :
  let n := wrap64 (Native.size t + 0) in
  ((n >=? Native.capacity t) = false ->
   JS.Add (Napi.Array [] :: Napi.Array [] :: rest) t =
   Some (t, Napi.give Napi.Undefined))
  /\ ((n >=? Native.capacity t) = true ->
      exists t',
        JS.Add (Napi.Array [] :: Napi.Array [] :: rest) t =
        Some (t', if snd (Native.reserve (Native.ceil2 n) (inner t))
                  then Napi.give Napi.Undefined
                  else Napi.throw "Out of memory!")
        /\ calls t' = (calls t ++ [call_reserve (Native.ceil2 n)])%list
        /\ inner t' = fst (Native.reserve (Native.ceil2 n) (inner t))).
Proof.
  intros n. subst n. unfold JS.Add. rewrite len_two_more.
  cbn [Napi.arg nth len List.length Z.of_nat Z.eqb negb].
  cbn [Native.size Native.capacity Native.dimensions Native.ceil2
       Native.reserve Traced].
  split; intros Hgrow; rewrite Hgrow; [reflexivity|].
  unfold logged.
  destruct (Native.reserve
              (Native.ceil2 (wrap64 (Native.size (inner t) + 0))) (inner t))
    as [e1 reserved].
  cbn [fst snd]. destruct reserved; cbn [negb];
    eexists; split; try reflexivity; split; reflexivity.
Qed.

Lemma add_of_an_empty_batch_witness :
  let t := untraced (Reference.fresh 0 0 []) in
  exists t',
    JS.Add [Napi.Array []; Napi.Array []] t =
    Some (t', Napi.give Napi.Undefined)
    /\ calls t' = [call_reserve 0].
Proof.
  intros t.
  destruct (add_of_an_empty_batch [] t) as [_ Hfull].
  destruct (Hfull eq_refl) as (t' & Hadd & Hcalls & _).
  exists t'. split; [exact Hadd | exact Hcalls].
Defined.




(** ** Searching *)

(** X7.  [Index::Search] refuses, before anything is asked of the engine:
    a call with fewer than two arguments, a first argument that is not a typed
    array or a second that is not a BigInt, all three with "Expects a  and the
    number of wanted results"; and, for a vector of the right length, a
    wanted number that is negative or does not fit 64 bits, with "Wanted
    number of matches must be an unsigned integer". *)
Theorem search_refuses_malformed_calls {E : Type} `{Native.Engine E}
    (e : E) :
  (forall ctx,
      len ctx < 2
      \/ Napi.IsTypedArray (Napi.arg 0 ctx) = false
      \/ Napi.IsBigInt (Napi.arg 1 ctx) = false ->
      JS.Search ctx e =
      Some (e, Napi.throw "Expects a  and the number of wanted results"))
  /\ (forall vector_js wanted_js rest,
      len vector_js = Native.dimensions e ->
      ~ 0 <= wanted_js < 2 ^ 64 ->
      JS.Search (Napi.Float32Array vector_js :: Napi.BigInt wanted_js :: rest) e
      = Some (e, Napi.throw
                   "Wanted number of matches must be an unsigned integer")).
Proof.
  split.
  - intros ctx Hbad. unfold JS.Search.
    destruct ctx as [|vector [|wanted rest]]; try reflexivity.
    cbn [Napi.arg nth] in Hbad.
    destruct Hbad as [Hshort | [Harray | Hbig]].
    + exfalso. revert Hshort. unfold len. cbn [List.length]. lia.
    + rewrite Harray. destruct wanted; reflexivity.
    + destruct wanted; try reflexivity. discriminate Hbig.
  - intros vector_js wanted_js rest Hdim Hout. unfold JS.Search.
    cbn [Napi.IsTypedArray negb]. rewrite Hdim, Z.eqb_refl. cbn [negb].
    pose proof (Uint64Value_lossy wanted_js Hout) as Hlossy.
    destruct (Napi.Uint64Value wanted_js) as [wanted lossless].
    cbn [snd] in Hlossy. subst lossless. reflexivity.
Qed.

Lemma search_refuses_malformed_calls_witness :
  let e := Reference.fresh 4 4 [(7, [0; 0])] in
  JS.Search [Napi.Float32Array [0; 0]] e =
    Some (e, Napi.throw "Expects a  and the number of wanted results")
  /\ JS.Search [Napi.Float32Array [0; 0]; Napi.BigInt (-3)] e =
     Some (e, Napi.throw
                "Wanted number of matches must be an unsigned integer").
Proof.
  intros e. destruct (search_refuses_malformed_calls e) as [Hshape Hwanted].
  split.
  - apply Hshape. left. vm_compute. reflexivity.
  - apply Hwanted; [reflexivity | lia].
Defined.

Lemma fill_nothing {A : Type} (src : list A) : Native.fill src [] = [].
Proof. destruct src; reflexivity. Qed.

(** X8.  A search for no matches gives empty buffers in both layers as soon
    as the engine answers without error, whatever that answer holds: the
    JavaScript result has empty [keys] and [distances], the Rust [Matches]
    two empty vectors. *)
Theorem search_for_no_matches {E : Type} `{Native.Engine E}
    (vector : list f32) (rest : list Napi.Value) (e e' : E)
    (result : Native.search_result_t) :
  len vector = Native.dimensions e ->
  Native.search vector 0 e = (e', Native.Returns result) ->
  Native.search_error result = None ->
  JS.Search (Napi.Float32Array vector :: Napi.BigInt 0 :: rest) e =
    Some (e', Napi.give (Napi.Object
            [("keys"%string, Napi.BigUint64Array []);
             ("distances"%string, Napi.Float32Array []);
             ("count"%string, Napi.BigInt (len (Native.found result)))]))
  /\ Rust.search vector 0 e =
     (e', Rust.Value {| Rust.keys := []; Rust.distances := [] |}).
Proof.
  intros Hdim Hnative Herror. split.
  - unfold JS.Search. cbn [Napi.IsTypedArray negb].
    rewrite Hdim, Z.eqb_refl. cbn [negb].
    rewrite Uint64Value_small by lia. cbn [negb].
    rewrite Hnative, Herror. unfold Native.dump_to.
    cbn [Z.to_nat repeat]. rewrite !fill_nothing. reflexivity.
  - unfold Rust.search. rewrite Hnative, Herror. unfold Native.dump_to.
    cbn [Rust.zeroed Rust.keys Rust.distances Z.to_nat repeat].
    rewrite !fill_nothing. unfold Rust.truncate. rewrite !firstn_nil.
    reflexivity.
Qed.

Lemma search_for_no_matches_witness :
  let e := Reference.fresh 4 4 [(7, [0; 0])] in
  Rust.search [0; 0] 0 e =
    (e, Rust.Value {| Rust.keys := []; Rust.distances := [] |})
  /\ exists count,
      JS.Search [Napi.Float32Array [0; 0]; Napi.BigInt 0] e =
      Some (e, Napi.give (Napi.Object
              [("keys"%string, Napi.BigUint64Array []);
               ("distances"%string, Napi.Float32Array []);
               ("count"%string, Napi.BigInt count)])).
Proof.
  intros e.
  assert (Hdim : len [0; 0] = Native.dimensions e) by reflexivity.
  assert (Hnative :
    Native.search [0; 0] 0 e =
    (e, Native.Returns {| Native.search_error := None; Native.found := [] |}))
    by (vm_compute; reflexivity).
  destruct (search_for_no_matches [0; 0] [] e e _ Hdim Hnative eq_refl)
    as [Hjs Hrust].
  split; [exact Hrust|]. eexists. exact Hjs.
Defined.

(** ** What the host is told *)



(** X9.  When the engine returns a result, the JavaScript layer throws
    exactly when that result carries a message, and what it throws is the
    message itself, word for word: in the single form of [Index::Add], in
    [Index::Search], in [Index::Remove] (which otherwise returns the engine's
    [completed] flag) and in [Index::Save], [Index::Load] and
    [Index::View]. *)
Theorem javascript_throws_the_engine_message {E : Type} `{Native.Engine E}
    (e e' : E) (rest : list Napi.Value) :
  (forall key vector result,
      0 <= key < 2 ^ 64 -> len vector = Native.dimensions e ->
      Native.add key vector (Marshalled.reserved_for_one e) =
        (e', Native.Returns result) ->
      JS.Add (Napi.BigInt key :: Napi.Float32Array vector :: rest) e =
      Some (e', match Native.add_error result with
                | Some message => Napi.throw message
                | None => Napi.give Napi.Undefined
                end))
  /\ (forall vector wanted result message,
      len vector = Native.dimensions e -> 0 <= wanted < 2 ^ 64 ->
      Native.search vector wanted e = (e', Native.Returns result) ->
      Native.search_error result = Some message ->
      JS.Search (Napi.Float32Array vector :: Napi.BigInt wanted :: rest) e =
      Some (e', Napi.throw message))
  /\ (forall key result,
      0 <= key < 2 ^ 64 ->
      Native.remove key e = (e', Native.Returns result) ->
      JS.Remove (Napi.BigInt key :: rest) e =
      (e', match Native.labeling_error result with
           | Some message => Napi.throw message
           | None => Napi.give (Napi.Boolean (Native.completed result))
           end))
  /\ (forall path result,
      let told :=
        match Native.serialization_error result with
        | Some message => Napi.throw message
        | None => Napi.give Napi.Undefined
        end in
      (Native.save path e = (e', Native.Returns result) ->
       JS.Save (Napi.Str path :: rest) e = (e', told))
      /\ (Native.load path e = (e', Native.Returns result) ->
          JS.Load (Napi.Str path :: rest) e = (e', told))
      /\ (Native.view path e = (e', Native.Returns result) ->
          JS.View (Napi.Str path :: rest) e = (e', told))).
Proof.
  split; [|split; [|split]].
  - intros key vector result Hkey Hdim Hnative. rewrite Add_single.
    fold (Marshalled.reserved_for_one e). unfold JS.add_one.
    rewrite Uint64Value_small by exact Hkey. cbn [negb].
    rewrite Hdim, Z.eqb_refl. cbn [negb]. rewrite Hnative.
    destruct (Native.add_error result); reflexivity.
  - intros vector wanted result message Hdim Hwanted Hnative Herror.
    unfold JS.Search. cbn [Napi.IsTypedArray negb].
    rewrite Hdim, Z.eqb_refl. cbn [negb].
    rewrite Uint64Value_small by exact Hwanted. cbn [negb].
    rewrite Hnative, Herror. reflexivity.
  - intros key result Hkey Hnative. unfold JS.Remove.
    rewrite Uint64Value_small by exact Hkey. cbn [negb]. rewrite Hnative.
    destruct (Native.labeling_error result); reflexivity.
  - intros path result told. subst told.
    unfold JS.Save, JS.Load, JS.View, JS.with_path.
    split; [|split]; intros ->;
      destruct (Native.serialization_error result); reflexivity.
Qed.

Lemma javascript_throws_the_engine_message_witness :
  let e := Reference.fresh 4 4 [(7, [0; 0])] in
  JS.Add [Napi.BigInt 7; Napi.Float32Array [1; 1]] e =
    Some (e, Napi.throw "Duplicate keys not allowed in high-level wrappers")
  /\ JS.Load [Napi.Str "missing.usearch"] e =
     (e, Napi.throw "Can't open file for reading").
Proof.
  intros e.
  destruct (javascript_throws_the_engine_message e e [])
    as (Hadd & _ & _ & Hfiles).
  split.
  - assert (Hkey : 0 <= 7 < 2 ^ 64) by lia.
    assert (Hdim : len [1; 1] = Native.dimensions e) by reflexivity.
    exact (Hadd 7 [1; 1]
             (Reference.bad_add "Duplicate keys not allowed in high-level wrappers")
             Hkey Hdim eq_refl).
  - destruct (Hfiles "missing.usearch"%string
                (Reference.bad_file "Can't open file for reading"))
      as (_ & Hload & _).
    exact (Hload eq_refl).
Defined.

(** X10.  When a native call throws, the JavaScript layer catches and
    names the failure itself: [std::bad_alloc] becomes "Out of memory" in
    [Index::Add], [Search], [Remove] and [Contains]; anything else becomes
    "Insertion failed" in [Add] and "Search failed" in the other three,
    [Remove] and [Contains] included; [Save], [Load] and [View] tell
    "Serialization failed", "Loading failed" and "Memory-mapping failed" for
    whatever was thrown. *)
Theorem javascript_names_native_exceptions {E : Type} `{Native.Engine E}
    (e e' : E) (rest : list Napi.Value) :
  (forall key vector,
      0 <= key < 2 ^ 64 -> len vector = Native.dimensions e ->
      (Native.add key vector (Marshalled.reserved_for_one e) =
         (e', Native.Throws_bad_alloc) ->
       JS.Add (Napi.BigInt key :: Napi.Float32Array vector :: rest) e =
       Some (e', Napi.throw "Out of memory"))
      /\ (Native.add key vector (Marshalled.reserved_for_one e) =
            (e', Native.Throws_other) ->
          JS.Add (Napi.BigInt key :: Napi.Float32Array vector :: rest) e =
          Some (e', Napi.throw "Insertion failed")))
  /\ (forall vector wanted,
      len vector = Native.dimensions e -> 0 <= wanted < 2 ^ 64 ->
      (Native.search vector wanted e = (e', Native.Throws_bad_alloc) ->
       JS.Search (Napi.Float32Array vector :: Napi.BigInt wanted :: rest) e =
       Some (e', Napi.throw "Out of memory"))
      /\ (Native.search vector wanted e = (e', Native.Throws_other) ->
          JS.Search (Napi.Float32Array vector :: Napi.BigInt wanted :: rest) e
          = Some (e', Napi.throw "Search failed")))
  /\ (forall key,
      0 <= key < 2 ^ 64 ->
      (Native.remove key e = (e', Native.Throws_bad_alloc) ->
       JS.Remove (Napi.BigInt key :: rest) e = (e', Napi.throw "Out of memory"))
      /\ (Native.remove key e = (e', Native.Throws_other) ->
          JS.Remove (Napi.BigInt key :: rest) e =
          (e', Napi.throw "Search failed"))
      /\ (Native.contains key e = Native.Throws_bad_alloc ->
          JS.Contains (Napi.BigInt key :: rest) e =
          (e, Napi.throw "Out of memory"))
      /\ (Native.contains key e = Native.Throws_other ->
          JS.Contains (Napi.BigInt key :: rest) e =
          (e, Napi.throw "Search failed")))
  /\ (forall path (thrown : Native.raised Native.serialization_result_t),
      thrown = Native.Throws_bad_alloc \/ thrown = Native.Throws_other ->
      (Native.save path e = (e', thrown) ->
       JS.Save (Napi.Str path :: rest) e =
       (e', Napi.throw "Serialization failed"))
      /\ (Native.load path e = (e', thrown) ->
          JS.Load (Napi.Str path :: rest) e = (e', Napi.throw "Loading failed"))
      /\ (Native.view path e = (e', thrown) ->
          JS.View (Napi.Str path :: rest) e =
          (e', Napi.throw "Memory-mapping failed"))).
Proof.
  split; [|split; [|split]].
  - intros key vector Hkey Hdim.
    split; intros Hnative; rewrite Add_single;
      fold (Marshalled.reserved_for_one e); unfold JS.add_one;
      rewrite Uint64Value_small by exact Hkey; cbn [negb];
      rewrite Hdim, Z.eqb_refl; cbn [negb]; rewrite Hnative; reflexivity.
  - intros vector wanted Hdim Hwanted.
    split; intros Hnative; unfold JS.Search; cbn [Napi.IsTypedArray negb];
      rewrite Hdim, Z.eqb_refl; cbn [negb];
      rewrite Uint64Value_small by exact Hwanted; cbn [negb];
      rewrite Hnative; reflexivity.
  - intros key Hkey.
    repeat split; intros Hnative; unfold JS.Remove, JS.Contains;
      rewrite Uint64Value_small by exact Hkey; cbn [negb];
      rewrite Hnative; reflexivity.
  - intros path thrown Hthrown.
    unfold JS.Save, JS.Load, JS.View, JS.with_path.
    split; [|split]; intros ->; destruct Hthrown as [-> | ->]; reflexivity.
Qed.

Lemma javascript_names_native_exceptions_witness :
  let e := {| Faulty.healthy := Reference.fresh 4 4 [(7, [0; 0])];
              Faulty.out_of_memory := false |} in
  let H := Faulty.engine Reference.engine in
  @JS.Remove _ H [Napi.BigInt 7] e = (e, Napi.throw "Search failed")
  /\ @JS.Add _ H [Napi.BigInt 8; Napi.Float32Array [1; 1]] e =
     Some (e, Napi.throw "Insertion failed")
  /\ @JS.View _ H [Napi.Str "index.usearch"] e =
     (e, Napi.throw "Memory-mapping failed").
Proof.
  intros e H.
  destruct (@javascript_names_native_exceptions _ H e e [])
    as (Hadd & _ & Hremove & Hfiles).
  assert (Hseven : 0 <= 7 < 2 ^ 64) by lia.
  assert (Height : 0 <= 8 < 2 ^ 64) by lia.
  split; [|split].
  - destruct (Hremove 7 Hseven) as (_ & Hother & _). exact (Hother eq_refl).
  - destruct (Hadd 8 [1; 1] Height eq_refl) as [_ Hother].
    exact (Hother eq_refl).
  - destruct (Hfiles "index.usearch"%string Native.Throws_other
                (or_intror eq_refl)) as (_ & _ & Hview).
    exact (Hview eq_refl).
Defined.

(** X11.  When the engine returns a result, the Rust [add], [remove],
    [rename] and [search] end with a [std::runtime_error] exactly when the
    result carries a message, and its text is that message; with it go the
    [completed] flag of [remove] and [rename] and the matches of [search].
    Without a message [add] returns, and [remove] and [rename] return the
    engine's [completed] flag. *)
Theorem rust_raises_the_engine_message {E : Type} `{Native.Engine E}
    (e e' : E) :
  (forall key vector result,
      Native.add key vector e = (e', Native.Returns result) ->
      Rust.add key vector e =
      (e', match Native.add_error result with
           | Some message => Rust.runtime_error message
           | None => Rust.Value tt
           end))
  /\ (forall key result,
      Native.remove key e = (e', Native.Returns result) ->
      Rust.remove key e =
      (e', match Native.labeling_error result with
           | Some message => Rust.runtime_error message
           | None => Rust.Value (Native.completed result)
           end))
  /\ (forall from to result,
      Native.rename from to e = (e', Native.Returns result) ->
      Rust.rename from to e =
      (e', match Native.labeling_error result with
           | Some message => Rust.runtime_error message
           | None => Rust.Value (Native.completed result)
           end))
  /\ (forall vector count result message,
      Native.search vector count e = (e', Native.Returns result) ->
      Native.search_error result = Some message ->
      Rust.search vector count e = (e', Rust.runtime_error message)).
Proof.
  split; [|split; [|split]].
  - intros key vector result Hnative. unfold Rust.add. rewrite Hnative.
    reflexivity.
  - intros key result Hnative. unfold Rust.remove. rewrite Hnative.
    reflexivity.
  - intros from to result Hnative. unfold Rust.rename. rewrite Hnative.
    reflexivity.
  - intros vector count result message Hnative Herror. unfold Rust.search.
    rewrite Hnative, Herror. reflexivity.
Qed.

Lemma rust_raises_the_engine_message_witness :
  let e := Reference.fresh 4 4 [(7, [0; 0]); (9, [1; 1])] in
  Rust.rename 7 9 e =
    (e, Rust.runtime_error "Renaming impossible, the key is already in use")
  /\ Rust.rename 5 6 e = (e, Rust.Value false)
  /\ Rust.add 7 [2; 2] e =
     (e, Rust.runtime_error "Duplicate keys not allowed in high-level wrappers").
Proof.
  intros e.
  destruct (rust_raises_the_engine_message e e) as (Hadd & _ & Hrename & _).
  split; [|split].
  - exact (Hrename 7 9
             {| Native.labeling_error :=
                  Some "Renaming impossible, the key is already in use"%string;
                Native.completed := false |} eq_refl).
  - exact (Hrename 5 6 (Reference.labeled false) eq_refl).
  - exact (Hadd 7 [2; 2]
             (Reference.bad_add "Duplicate keys not allowed in high-level wrappers")
             eq_refl).
Defined.


(** ** Identifiers *)

(** X13.  [Index::Remove] and [Index::Contains] refuse a call without
    arguments or with a first argument that is not a BigInt ("Expects an entry
    identifier"), and a BigInt that is negative or does not fit 64 bits
    ("Identifier must be an unsigned integer"), before anything is asked of
    the engine; and [Index::Contains] hands the index back as it was on every
    call. *)
Theorem identifiers_are_checked_first {E : Type} `{Native.Engine E}
    (e : E) :
  (forall ctx,
      Napi.IsBigInt (Napi.arg 0 ctx) = false ->
      JS.Remove ctx e = (e, Napi.throw "Expects an entry identifier")
      /\ JS.Contains ctx e = (e, Napi.throw "Expects an entry identifier"))
  /\ (forall key_js rest,
      ~ 0 <= key_js < 2 ^ 64 ->
      JS.Remove (Napi.BigInt key_js :: rest) e =
        (e, Napi.throw "Identifier must be an unsigned integer")
      /\ JS.Contains (Napi.BigInt key_js :: rest) e =
         (e, Napi.throw "Identifier must be an unsigned integer"))
  /\ (forall ctx, fst (JS.Contains ctx e) = e).
Proof.
  split; [|split].
  - intros ctx Hbig. unfold JS.Remove, JS.Contains, Napi.arg in *.
    destruct ctx as [|v rest]; [split; reflexivity|].
    destruct v; cbn in Hbig; try discriminate Hbig; split; reflexivity.
  - intros key_js rest Hout. unfold JS.Remove, JS.Contains.
    pose proof (Uint64Value_lossy key_js Hout) as Hlossy.
    destruct (Napi.Uint64Value key_js) as [key lossless].
    cbn [snd] in Hlossy. subst lossless. split; reflexivity.
  - intros ctx. unfold JS.Contains.
    destruct ctx as [|v rest]; [reflexivity|].
    destruct v; try reflexivity.
    destruct (Napi.Uint64Value z) as [key lossless].
    destruct lossless; cbn [negb]; [|reflexivity].
    destruct (Native.contains key e) as [b| |]; reflexivity.
Qed.

Lemma identifiers_are_checked_first_witness :
  let t := untraced (Reference.fresh 4 4 [(7, [0; 0])]) in
  JS.Remove [Napi.Str "7"] t = (t, Napi.throw "Expects an entry identifier")
  /\ JS.Remove [Napi.BigInt (2 ^ 64)] t =
     (t, Napi.throw "Identifier must be an unsigned integer")
  /\ JS.Contains [] t = (t, Napi.throw "Expects an entry identifier").
Proof.
  intros t. destruct (identifiers_are_checked_first t) as (Hshape & Hrange & _).
  destruct (Hshape [Napi.Str "7"] eq_refl) as [Hremove _].
  destruct (Hshape [] eq_refl) as [_ Hcontains].
  assert (Hout : ~ 0 <= 2 ^ 64 < 2 ^ 64) by lia.
  destruct (Hrange (2 ^ 64) [] Hout) as [Hbig _].
  split; [exact Hremove|]. split; [exact Hbig | exact Hcontains].
Defined.

(** ** Kinds *)

(** X14.  [rust_to_cpp_metric] and [rust_to_cpp_scalar] keep apart the
    kinds their [switch] names: two different enumerators go to two different
    kinds of the engine, and none of them goes to [unknown_k].  Of the
    representations outside the enumerators, which all take the [default]
    arm, nothing is said. *)
Theorem rust_kinds_stay_apart :
  (forall a b,
      a <> Rust.MetricKind_other -> b <> Rust.MetricKind_other -> a <> b ->
      Rust.rust_to_cpp_metric a <> Rust.rust_to_cpp_metric b)
  /\ (forall a,
      a <> Rust.MetricKind_other ->
      Rust.rust_to_cpp_metric a <> Native.metric_kind_t.unknown_k)
  /\ (forall a b,
      a <> Rust.ScalarKind_other -> b <> Rust.ScalarKind_other -> a <> b ->
      Rust.rust_to_cpp_scalar a <> Rust.rust_to_cpp_scalar b)
  /\ (forall a,
      a <> Rust.ScalarKind_other ->
      Rust.rust_to_cpp_scalar a <> Native.scalar_kind_t.unknown_k).
Proof.
  repeat split.
  - intros a b Ha Hb Hab Hsame; destruct a, b; cbn in Hsame;
      first [discriminate Hsame | now apply Hab | now apply Ha | now apply Hb].
  - intros a Ha Hsame; destruct a; cbn in Hsame;
      first [discriminate Hsame | now apply Ha].
  - intros a b Ha Hb Hab Hsame; destruct a, b; cbn in Hsame;
      first [discriminate Hsame | now apply Hab | now apply Ha | now apply Hb].
  - intros a Ha Hsame; destruct a; cbn in Hsame;
      first [discriminate Hsame | now apply Ha].
Qed.

Lemma rust_kinds_stay_apart_witness :
  Rust.rust_to_cpp_metric Rust.Cos <> Rust.rust_to_cpp_metric Rust.L2sq
  /\ Rust.rust_to_cpp_metric Rust.Sorensen <> Native.metric_kind_t.unknown_k
  /\ Rust.rust_to_cpp_scalar Rust.F16 <> Rust.rust_to_cpp_scalar Rust.B1
  /\ Rust.rust_to_cpp_scalar Rust.B1 <> Native.scalar_kind_t.unknown_k.
Proof.
  destruct rust_kinds_stay_apart as (Hmetric & Hknown & Hscalar & Hbits).
  split; [|split; [|split]].
  - apply (Hmetric Rust.Cos Rust.L2sq); discriminate.
  - apply (Hknown Rust.Sorensen); discriminate.
  - apply (Hscalar Rust.F16 Rust.B1); discriminate.
  - apply (Hbits Rust.B1); discriminate.
Defined.

(** ** The constructor *)

Section Constructor.
Context {E : Type} `{Native.Engine E}.
Import Napi.

Lemma Index_one_object (properties : list (string * Value)) :
  JS.Index [Object properties] =
  match JS.option_uint (Object properties) "dimensions" 0 true with
  | None => None
  | Some (dimensions, lossless) =>
  match JS.option_uint (Object properties) "capacity" 0 lossless with
  | None => None
  | Some (members, lossless) =>
  match JS.option_uint (Object properties) "connectivity"
          Native.default_connectivity lossless with
  | None => None
  | Some (connectivity, lossless) =>
  match JS.option_uint (Object properties) "expansion_add"
          Native.default_expansion_add lossless with
  | None => None
  | Some (expansion_add, lossless) =>
  match JS.option_uint (Object properties) "expansion_search"
          Native.default_expansion_search lossless with
  | None => None
  | Some (expansion_search, lossless) =>
  if negb lossless then JS.failed "Arguments must be unsigned integers"
  else
  match JS.option_name (Object properties) "quantization" with
  | None => None
  | Some quantization_str =>
  let expected_q :=
    match quantization_str with
    | Some s => Native.scalar_kind_from_name s
    | None =>
        {| Native.expected_value := Native.scalar_kind_t.f32_k;
           Native.expected_error := None |}
    end in
  match Native.expected_error expected_q with
  | Some message => JS.failed message
  | None =>
  match JS.option_name (Object properties) "metric" with
  | None => None
  | Some metric_str =>
  let expected_m :=
    match metric_str with
    | Some s => Native.metric_from_name s
    | None =>
        {| Native.expected_value := Native.metric_kind_t.ip_k;
           Native.expected_error := None |}
    end in
  match Native.expected_error expected_m with
  | Some message => JS.failed message
  | None =>
      Some (Some (fst (Native.reserve members
                         (Native.make
                            {| Native.metric_dimensions := dimensions;
                               Native.metric_kind :=
                                 Native.expected_value expected_m;
                               Native.metric_scalar :=
                                 Native.expected_value expected_q |}
                            {| Native.config_connectivity := connectivity;
                               Native.config_expansion_add := expansion_add;
                               Native.config_expansion_search :=
                                 expansion_search |}))), [])
  end end end end end end end end end.
Proof. reflexivity. Qed.

Lemma Index_shape (ctx : list Value) :
  len ctx = 0 \/ 2 <= len ctx \/ IsObject (arg 0 ctx) = false ->
  JS.Index ctx =
  JS.failed "Pass args as named objects: dimensions: uint, capacity: uint, metric: str".
Proof.
  intros Hshape. unfold JS.Index.
  destruct Hshape as [Hnone | [Hmany | Hobject]].
  - rewrite Hnone. reflexivity.
  - destruct (len ctx =? 0); [reflexivity|].
    assert (Hge : (len ctx >=? 2) = true) by (apply Z.geb_le; exact Hmany).
    rewrite Hge. reflexivity.
  - rewrite Hobject. cbn [negb]. rewrite !orb_true_r. reflexivity.
Qed.

End Constructor.

(** X15.  [Index::Index] is all or nothing: either nothing is thrown and
    [native_] holds an engine, or exactly one type error is thrown and
    [native_] stays empty. *)
Theorem constructor_is_all_or_nothing {E : Type} `{Native.Engine E}
    (ctx : list Napi.Value) (native : option E) (errors : list Napi.Error) :
  JS.Index ctx = Some (native, errors) ->
  (errors = [] /\ exists e, native = Some e)
  \/ (native = None /\ exists message, errors = [Napi.TypeError message]).
Proof.
  intros Hindex. unfold JS.Index, JS.failed in Hindex.
  repeat match type of Hindex with
         | context [if ?b then _ else _] => destruct b
         | context [match ?x with _ => _ end] => destruct x
         end;
    try discriminate Hindex;
    injection Hindex as <- <-; eauto.
Qed.

Lemma constructor_is_all_or_nothing_witness :
  exists e,
    JS.Index (E := Reference.index)
      [Napi.Object [("dimensions"%string, Napi.BigInt 4)]] = Some (Some e, []).
Proof.
  destruct (JS.Index (E := Reference.index)
              [Napi.Object [("dimensions"%string, Napi.BigInt 4)]])
    as [[native errors]|] eqn:Hindex;
    [|vm_compute in Hindex; discriminate Hindex].
  destruct (constructor_is_all_or_nothing _ native errors Hindex)
    as [[-> (e & ->)] | [-> (message & ->)]].
  - exists e. reflexivity.
  - exfalso. vm_compute in Hindex. discriminate Hindex.
Defined.

(** X16.  [Index::Index] takes exactly one argument, an object: called
    with none, with two or more, or with something that is not an object, it
    throws "Pass args as named objects: ..." and makes no engine. *)
Theorem constructor_takes_one_object {E : Type} `{Native.Engine E}
    (ctx : list Napi.Value) :
  len ctx = 0 \/ 2 <= len ctx \/ Napi.IsObject (Napi.arg 0 ctx) = false ->
  JS.Index (E := E) ctx =
  Some (None,
        [Napi.TypeError
           "Pass args as named objects: dimensions: uint, capacity: uint, metric: str"]).
Proof. intros Hshape. rewrite Index_shape by exact Hshape. reflexivity. Qed.

Lemma constructor_takes_one_object_witness :
  JS.Index (E := Reference.index) [Napi.BigInt 4] =
  Some (None,
        [Napi.TypeError
           "Pass args as named objects: dimensions: uint, capacity: uint, metric: str"]).
Proof.
  apply constructor_takes_one_object. right; right. reflexivity.
Defined.

Section ConstructorNumbers.
Context {E : Type} `{Native.Engine E}.
Import Napi.

Lemma option_uint_present (params : Value) (name : string) (z keep : Z)
    (lossless : bool) :
  Has params name = true -> Get params name = BigInt z ->
  JS.option_uint params name keep lossless = Some (Uint64Value z).
Proof. intros Hhas Hget. unfold JS.option_uint. rewrite Hhas, Hget. reflexivity. Qed.

Lemma option_name_absent (params : Value) (name : string) :
  Has params name = false -> JS.option_name params name = Some None.
Proof. intros Hhas. unfold JS.option_name. rewrite Hhas. reflexivity. Qed.

Lemma option_uint_capacity (params : Value) (lossless : bool)
    (members : Z) (lossless' : bool) :
  JS.option_uint params "capacity" 0 lossless = Some (members, lossless') ->
  members = Marshalled.capacity_of params.
Proof.
  unfold JS.option_uint, Marshalled.capacity_of.
  destruct (Has params "capacity"); [|intros Hsome; injection Hsome as <- _; reflexivity].
  destruct (Get params "capacity"); try discriminate.
  intros Hsome. injection Hsome as <- _. reflexivity.
Qed.

End ConstructorNumbers.

(** X17.  The numeric options of [Index::Index] share one [lossless] flag
    that every read overwrites, and [expansion_search] is read last: when it
    is present, it alone decides.  Out of range, the constructor throws
    "Arguments must be unsigned integers"; in range, and with no names to
    parse, the constructor makes the engine, whatever the [dimensions],
    [capacity], [connectivity] and [expansion_add] before it were - a
    negative one goes to the engine as its low 64 bits. *)
Theorem constructor_checks_the_last_number_read {E : Type} `{Native.Engine E}
    (properties : list (string * Napi.Value)) (z : Z) :
  let params := Napi.Object properties in
  Options.typed params = true ->
  Napi.Has params "expansion_search" = true ->
  Napi.Get params "expansion_search" = Napi.BigInt z ->
  (~ 0 <= z < 2 ^ 64 ->
   JS.Index (E := E) [params] =
   Some (None, [Napi.TypeError "Arguments must be unsigned integers"]))
  /\ (0 <= z < 2 ^ 64 ->
      Napi.Has params "quantization" = false ->
      Napi.Has params "metric" = false ->
      exists e, JS.Index (E := E) [params] = Some (Some e, [])).
Proof.
  intros params Htyped Hhas Hget. unfold Options.typed in Htyped.
  repeat match type of Htyped with
         | _ && _ = true =>
             apply andb_prop in Htyped; destruct Htyped as [Htyped ?]
         end.
  subst params. rewrite Index_one_object.
  set (params := Napi.Object properties) in *.
  destruct (option_uint_typed params "dimensions" 0 true Htyped)
    as [[dimensions l0] ->].
  match goal with
  | Hc : Options.uint_typed params "capacity" = true |- _ =>
      destruct (option_uint_typed params "capacity" 0 l0 Hc)
        as [[members l1] ->]
  end.
  match goal with
  | Hc : Options.uint_typed params "connectivity" = true |- _ =>
      destruct (option_uint_typed params "connectivity"
                  Native.default_connectivity l1 Hc) as [[connectivity l2] ->]
  end.
  match goal with
  | Hc : Options.uint_typed params "expansion_add" = true |- _ =>
      destruct (option_uint_typed params "expansion_add"
                  Native.default_expansion_add l2 Hc) as [[expansion_add l3] ->]
  end.
  rewrite (option_uint_present params "expansion_search" z _ l3 Hhas Hget).
  split.
  - intros Hout. pose proof (Uint64Value_lossy z Hout) as Hlossy.
    destruct (Napi.Uint64Value z) as [value lossless]. cbn [snd] in Hlossy.
    subst lossless. reflexivity.
  - intros Hin Hquantization Hmetric.
    rewrite Uint64Value_small by exact Hin. cbn [negb].
    rewrite !option_name_absent by assumption.
    cbn [Native.expected_error]. eexists. reflexivity.
Qed.

Lemma constructor_checks_the_last_number_read_witness :
  let params :=
    Napi.Object [("dimensions"%string, Napi.BigInt (-1));
                 ("expansion_search"%string, Napi.BigInt 64)] in
  exists e,
    JS.Index (E := Reference.index) [params] = Some (Some e, [])
    /\ Native.dimensions e = 2 ^ 64 - 1.
Proof.
  intros params.
  assert (Hin : 0 <= 64 < 2 ^ 64) by lia.
  destruct (@constructor_checks_the_last_number_read
              Reference.index Reference.engine
              [("dimensions"%string, Napi.BigInt (-1));
               ("expansion_search"%string, Napi.BigInt 64)] 64
              eq_refl eq_refl eq_refl) as [_ Hmade].
  destruct (Hmade Hin eq_refl eq_refl) as (e & Hindex).
  exists e. split; [exact Hindex|].
  fold params in Hindex. vm_compute in Hindex. injection Hindex as <-.
  reflexivity.
Defined.

(** X18.  A constructor that succeeds has asked the engine for exactly one
    thing after making it: to reserve the capacity of the configuration bag,
    the low 64 bits of [capacity], or no members when the bag has none. *)
Theorem constructor_reserves_the_capacity {E : Type} `{Native.Engine E}
    (properties : list (string * Napi.Value)) (t : traced E) :
  JS.Index (E := traced E) [Napi.Object properties] = Some (Some t, []) ->
  calls t =
  [call_reserve (Marshalled.capacity_of (Napi.Object properties))].
Proof.
  intros Hindex. rewrite Index_one_object in Hindex.
  set (params := Napi.Object properties) in *.
  destruct (JS.option_uint params "dimensions" 0 true)
    as [[dimensions l0]|]; try discriminate Hindex.
  destruct (JS.option_uint params "capacity" 0 l0)
    as [[members l1]|] eqn:Hcapacity; try discriminate Hindex.
  apply option_uint_capacity in Hcapacity.
  destruct (JS.option_uint params "connectivity" _ l1)
    as [[connectivity l2]|]; try discriminate Hindex.
  destruct (JS.option_uint params "expansion_add" _ l2)
    as [[expansion_add l3]|]; try discriminate Hindex.
  destruct (JS.option_uint params "expansion_search" _ l3)
    as [[expansion_search l4]|]; try discriminate Hindex.
  destruct (negb l4); [discriminate Hindex|].
  destruct (JS.option_name params "quantization") as [qs|];
    try discriminate Hindex.
  cbv zeta in Hindex.
  match type of Hindex with
  | context [Native.expected_error ?x] =>
      destruct (Native.expected_error x); try discriminate Hindex
  end.
  destruct (JS.option_name params "metric") as [ms|]; try discriminate Hindex.
  match type of Hindex with
  | context [match Native.expected_error ?x with _ => _ end] =>
      destruct (Native.expected_error x); try discriminate Hindex
  end.
  injection Hindex as <-.
  cbn [Native.reserve Native.make Traced]. unfold logged. cbn [calls].
  rewrite Hcapacity. reflexivity.
Qed.

Lemma constructor_reserves_the_capacity_witness :
  exists t : traced Reference.index,
    JS.Index (E := traced Reference.index)
      [Napi.Object [("dimensions"%string, Napi.BigInt 4);
                    ("capacity"%string, Napi.BigInt 10)]] = Some (Some t, [])
    /\ calls t = [call_reserve 10]
    /\ Native.capacity t = 10.
Proof.
  destruct (JS.Index (E := traced Reference.index)
              [Napi.Object [("dimensions"%string, Napi.BigInt 4);
                            ("capacity"%string, Napi.BigInt 10)]])
    as [[[t|] [|error errors]]|] eqn:Hindex;
    try (vm_compute in Hindex; discriminate Hindex).
  exists t. split; [reflexivity|].
  pose proof (constructor_reserves_the_capacity _ t Hindex) as Hcalls.
  split; [exact Hcalls|].
  vm_compute in Hindex. injection Hindex as <-. reflexivity.
Defined.

(** X19.  What [Index::Index] falls back on: a configuration bag that
    names no metric, no quantization and no connectivity or expansion gives an
    engine made for the inner product over 32-bit floats, with the engine's
    own default connectivity and expansions. *)
Theorem constructor_defaults {E : Type} `{Native.Engine E}
    (properties : list (string * Napi.Value)) (e : E) :
  let params := Napi.Object properties in
  JS.Index [params] = Some (Some e, []) ->
  Napi.Has params "quantization" = false ->
  Napi.Has params "metric" = false ->
  Napi.Has params "connectivity" = false ->
  Napi.Has params "expansion_add" = false ->
  Napi.Has params "expansion_search" = false ->
  exists dimensions,
    e = fst (Native.reserve (Marshalled.capacity_of params)
               (Native.make
                  {| Native.metric_dimensions := dimensions;
                     Native.metric_kind := Native.metric_kind_t.ip_k;
                     Native.metric_scalar := Native.scalar_kind_t.f32_k |}
                  {| Native.config_connectivity := Native.default_connectivity;
                     Native.config_expansion_add :=
                       Native.default_expansion_add;
                     Native.config_expansion_search :=
                       Native.default_expansion_search |})).
Proof.
  intros params Hindex Hq Hm Hc Ha Hs. subst params.
  rewrite Index_one_object in Hindex.
  set (params := Napi.Object properties) in *.
  destruct (JS.option_uint params "dimensions" 0 true)
    as [[dimensions l0]|]; try discriminate Hindex.
  destruct (JS.option_uint params "capacity" 0 l0)
    as [[members l1]|] eqn:Hcapacity; try discriminate Hindex.
  apply option_uint_capacity in Hcapacity.
  unfold JS.option_uint in Hindex at 1 2 3. rewrite Hc, Ha, Hs in Hindex.
  rewrite !option_name_absent in Hindex by assumption.
  destruct (negb l1); [discriminate Hindex|].
  cbn [Native.expected_error Native.expected_value] in Hindex.
  injection Hindex as <-. exists dimensions. rewrite Hcapacity. reflexivity.
Qed.

Lemma constructor_defaults_witness :
  exists e dimensions,
    JS.Index (E := Reference.index)
      [Napi.Object [("dimensions"%string, Napi.BigInt 4)]] = Some (Some e, [])
    /\ e = fst (Native.reserve 0
                  (Native.make
                     {| Native.metric_dimensions := dimensions;
                        Native.metric_kind := Native.metric_kind_t.ip_k;
                        Native.metric_scalar := Native.scalar_kind_t.f32_k |}
                     {| Native.config_connectivity := 16;
                        Native.config_expansion_add := 128;
                        Native.config_expansion_search := 64 |})).
Proof.
  destruct (JS.Index (E := Reference.index)
              [Napi.Object [("dimensions"%string, Napi.BigInt 4)]])
    as [[[e|] [|error errors]]|] eqn:Hindex;
    try (vm_compute in Hindex; discriminate Hindex).
  destruct (constructor_defaults _ e Hindex eq_refl eq_refl eq_refl eq_refl
              eq_refl) as (dimensions & He).
  exists e, dimensions. split; [reflexivity | exact He].
Defined.
